(** * The motionEye integration: webhook configuration, camera
      reconciliation and the webhook receiver.

    A shallow embedding of
    [homeassistant/components/motioneye/__init__.py].  Python values
    are a small tagged union; dictionaries with string keys are finite
    maps; the effects of the host framework (device registry,
    dispatcher, event bus, task queue, webhook table, client session)
    are explicit fields of a state record that every operation threads
    through, and an exception leaves the state as it was when it was
    raised.  A dict that the code writes in place is threaded through
    the call that writes it and stored back where the caller holds
    it. *)

From Stdlib Require Import ZArith Ascii.
From Stdlib Require SpecFloat.
From stdpp Require Import gmap strings list fin_maps sorting pretty infinite.

Open Scope string_scope.

Set Warnings "-register-all,-clear-no-such-hyp".
Set Default Proof Using "Type".

(** ** Python values *)

(** A floating point number: zero, infinity, not-a-number, or
    [(-1)^s * m * 2^e]. *)
Abbreviation float := SpecFloat.spec_float.

(** The values a decoded JSON document or a camera dict can hold.
    Strings are byte strings (UTF-8). *)
Inductive pyval : Type :=
  | PNone
  | PBool (b : bool)
  | PInt (z : Z)
  | PFloat (f : float)
  | PStr (s : string)
  | PList (l : list pyval)
  | PDict (d : gmap string pyval).

Abbreviation pydict := (gmap string pyval).

(** Exceptions that the modelled code can raise or let through. *)
Inductive exn : Type :=
  | TypeError
  | KeyError (k : string)
  | ValueError
  | ConfigEntryAuthFailed
  | ConfigEntryNotReady
  | MaxLengthExceeded
  | OtherError.

(** A raising computation without state: [inl e] is "raised [e]". *)
Definition result (A : Type) : Type := (exn + A)%type.

(** [f != 0.0]: both zeros are equal to zero, not-a-number is not. *)
Definition float_nonzero (f : float) : bool :=
  match f with
  | SpecFloat.S754_zero _ => false
  | _ => true
  end.

(** [f == z] for an integer [z]: the comparison is exact. *)
Definition float_eq_int (f : float) (z : Z) : bool :=
  match f with
  | SpecFloat.S754_zero _ => (z =? 0)%Z
  | SpecFloat.S754_finite s m e =>
      let v := if s then Z.neg m else Z.pos m in
      if (0 <=? e)%Z then (v * 2 ^ e =? z)%Z else (z * 2 ^ (- e) =? v)%Z
  | _ => false
  end.

(** [bool(v)]. *)
Definition truthy (v : pyval) : bool :=
  match v with
  | PNone => false
  | PBool b => b
  | PInt z => negb (z =? 0)%Z
  | PFloat f => float_nonzero f
  | PStr s => negb (String.eqb s "")
  | PList l => match l with [] => false | _ => true end
  | PDict d => negb (bool_decide (d = ∅))
  end.

(** [v == s] for a string [s]: only an equal string compares equal. *)
Definition eq_str (v : pyval) (s : string) : bool :=
  match v with
  | PStr s' => String.eqb s' s
  | _ => false
  end.

(** [pat in s] on strings: [pat] occurs as a contiguous substring. *)
Fixpoint str_contains (pat s : string) : bool :=
  String.prefix pat s ||
  match s with
  | EmptyString => false
  | String _ s' => str_contains pat s'
  end.

(** [s in v] for a string [s]: substring test on a string, membership
    on a list, key test on a dict, [TypeError] on everything else. *)
Definition py_in (s : string) (v : pyval) : result bool :=
  match v with
  | PStr t => inr (str_contains s t)
  | PList l => inr (existsb (fun x => eq_str x s) l)
  | PDict d => inr (bool_decide (is_Some (d !! s)))
  | _ => inl TypeError
  end.

(** [v[k]] for a string [k]: only a dict can be indexed by a string. *)
Definition py_getitem (v : pyval) (k : string) : result pyval :=
  match v with
  | PDict d => match d !! k with
               | Some x => inr x
               | None => inl (KeyError k)
               end
  | _ => inl TypeError
  end.

(** [d.get(k)] and [d.get(k, default)]. *)
Definition dict_get (d : pydict) (k : string) : pyval :=
  default PNone (d !! k).

Definition dict_get_default (d : pydict) (k : string) (dflt : pyval) : pyval :=
  default dflt (d !! k).

(** [a or b] where [b] is only evaluated when [a] is falsy. *)
Definition or_else (a : bool) (b : result bool) : result bool :=
  if a then inr true else b.

(** ** Insertion-ordered dicts from strings to strings

    The query parameters of [_build_url] are a dict literal whose
    iteration order is the order of first insertion. *)
Definition odict : Type := list (string * string).

(** [d[k] = v]: an existing key keeps its place and takes the new
    value, a new key goes to the end. *)
Fixpoint odict_set (k v : string) (d : odict) : odict :=
  match d with
  | [] => [(k, v)]
  | (k', v') :: d' =>
      if String.eqb k' k then (k', v) :: d' else (k', v') :: odict_set k v d'
  end.

(** ** [sorted] on strings: by code point, which on UTF-8 byte strings
    is the lexicographic order of the bytes. *)
Definition str_le (a b : string) : Prop := String.leb a b = true.

#[global] Instance str_le_dec : RelDecision str_le :=
  fun a b => bool_eq_dec (String.leb a b) true.

Definition sorted (l : list string) : list string := merge_sort str_le l.

(** ** [urllib.parse.urlencode] with [quote_via=quote_plus] *)

Definition ascii_in (c : ascii) (s : string) : bool :=
  existsb (Ascii.eqb c) (String.list_ascii_of_string s).

(** The characters [quote] never encodes. *)
Definition _ALWAYS_SAFE : string :=
  "ABCDEFGHIJKLMNOPQRSTUVWXYZabcdefghijklmnopqrstuvwxyz0123456789_.-~".

Definition hex_digit (n : N) : ascii :=
  default "0"%char (String.list_ascii_of_string "0123456789ABCDEF" !! N.to_nat n).

(** ['%{:02X}'.format(byte)]. *)
Definition percent_hex (c : ascii) : string :=
  let n := N_of_ascii c in
  String "%" (String (hex_digit (n / 16)) (String (hex_digit (n mod 16)) "")).

(** [quote(s, safe)]: every byte outside [_ALWAYS_SAFE] and [safe]
    becomes [%XX]. *)
Fixpoint quote (s safe : string) : string :=
  match s with
  | EmptyString => EmptyString
  | String c s' =>
      (if ascii_in c _ALWAYS_SAFE || ascii_in c safe
       then String c EmptyString else percent_hex c) ++ quote s' safe
  end.

(** [str.replace(' ', '+')]. *)
Fixpoint replace_space_plus (s : string) : string :=
  match s with
  | EmptyString => EmptyString
  | String c s' =>
      String (if Ascii.eqb c " " then "+"%char else c) (replace_space_plus s')
  end.

(** [quote_plus(s, safe)]. *)
Definition quote_plus (s safe : string) : string :=
  if negb (ascii_in " " s) then quote s safe
  else replace_space_plus (quote s (safe ++ " ")).

(** ['&'.join(l)]. *)
Fixpoint join_amp (l : list string) : string :=
  match l with
  | [] => ""
  | [x] => x
  | x :: l' => x ++ "&" ++ join_amp l'
  end.

(** [urlencode(query, safe=safe)] on a dict of strings. *)
Definition urlencode (query : odict) (safe : string) : string :=
  join_amp
    (map (fun kv => quote_plus (fst kv) safe ++ "=" ++ quote_plus (snd kv) safe)
         query).

(** What [quote_plus] makes of one character: a space becomes [+], a
    safe character stays, any other becomes [%XX]. *)
Definition quote_plus_char (safe : string) (c : ascii) : string :=
  if Ascii.eqb c " " then "+"
  else if ascii_in c _ALWAYS_SAFE || ascii_in c safe then String c ""
  else percent_hex c.

Fixpoint quote_plus_chars (safe s : string) : string :=
  match s with
  | EmptyString => ""
  | String c s' => quote_plus_char safe c ++ quote_plus_chars safe s'
  end.

(** [str(v)] as an f-string applies it.  The text of a float, a list
    or a dict is left to [repr_container], which plays no part below. *)
Definition py_str (repr_container : pyval -> string) (v : pyval) : string :=
  match v with
  | PNone => "None"
  | PBool true => "True"
  | PBool false => "False"
  | PInt z => pretty z
  | PStr s => s
  | _ => repr_container v
  end.

(** ** The hub *)

(** Modelled from the spec: the hub's device registry ("hub-side device
    records") is not among the sources.  A device record has a registry
    id, a set of [(domain, id)] identifiers, the config entries it
    belongs to, and descriptive fields. *)
Record DeviceEntry : Type := {
  dev_id : string;
  dev_identifiers : gset (string * string);
  dev_config_entries : gset string;
  dev_manufacturer : string;
  dev_model : string;
  dev_name : pyval;
}.

(** A config entry: [entry.entry_id], [entry.data], [entry.options]. *)
Record ConfigEntry : Type := {
  entry_id : string;
  data : gmap string string;
  options : pydict;
}.

(** How the remote device answers [async_client_login]. *)
Inductive login_outcome : Type :=
  | LoginOk
  | LoginInvalidAuth     (* MotionEyeClientInvalidAuthError *)
  | LoginClientError     (* any other MotionEyeClientError *)
  | LoginOtherError.     (* an exception that is no MotionEyeClientError *)

(** Calls made on the client session. *)
Inductive client_call : Type :=
  | async_client_login
  | async_client_close.

(** Coroutines handed to [hass.async_create_task]. *)
Inductive task : Type :=
  | async_set_camera (camera_id : pyval) (camera : pydict)
  | setup_then_listen (entry_id : string).

(** A registered webhook: domain, name and handler.  The handler of
    this integration is [handle_webhook]; the table may hold handlers
    of other integrations as well. *)
Inductive handler : Type :=
  | handle_webhook_ref
  | other_handler (domain : string).

Record webhook : Type := {
  wh_domain : string;
  wh_name : string;
  wh_handler : handler;
}.

(** What [hass.data[DOMAIN][entry_id]] holds: the client (by its URL)
    and the coordinator (by its name). *)
Record entry_runtime : Type := {
  CONF_CLIENT : string;
  CONF_COORDINATOR : string;
}.

(** An HTTP response. *)
Record Response : Type := {
  text : string;
  status : Z;
}.

Definition BAD_REQUEST : Z := 400.

(** The state the integration reads and writes. *)
Record hass : Type := {
  entry : ConfigEntry;                           (* the entry at hand *)
  hass_data : gmap string (gmap string entry_runtime);   (* [hass.data] *)
  webhooks : gmap string webhook;                (* webhook id -> handler *)
  devices : list DeviceEntry;                    (* device registry *)
  dispatched : list (string * pydict);           (* dispatcher signals sent *)
  bus : list (string * pydict);                  (* events fired *)
  tasks : list task;                             (* tasks created *)
  client_calls : list client_call;               (* calls on the client *)
  current_cameras : gset (string * string);
  coordinator_data : option (gmap string (list (option pydict)));
  remote_login : login_outcome;                  (* the remote device *)
  internal_url : option string;                  (* [get_url], if any *)
  platforms_unload : bool;                       (* [async_unload_platforms] *)
  ids_drawn : nat;                               (* ids generated so far *)
}.

Definition set_entry (e : ConfigEntry) (h : hass) : hass :=
  {| entry := e; hass_data := hass_data h; webhooks := webhooks h;
     devices := devices h; dispatched := dispatched h; bus := bus h;
     tasks := tasks h; client_calls := client_calls h;
     current_cameras := current_cameras h;
     coordinator_data := coordinator_data h; remote_login := remote_login h;
     internal_url := internal_url h; platforms_unload := platforms_unload h;
     ids_drawn := ids_drawn h |}.

Definition set_hass_data (x : gmap string (gmap string entry_runtime))
    (h : hass) : hass :=
  {| entry := entry h; hass_data := x; webhooks := webhooks h;
     devices := devices h; dispatched := dispatched h; bus := bus h;
     tasks := tasks h; client_calls := client_calls h;
     current_cameras := current_cameras h;
     coordinator_data := coordinator_data h; remote_login := remote_login h;
     internal_url := internal_url h; platforms_unload := platforms_unload h;
     ids_drawn := ids_drawn h |}.

Definition set_webhooks (x : gmap string webhook) (h : hass) : hass :=
  {| entry := entry h; hass_data := hass_data h; webhooks := x;
     devices := devices h; dispatched := dispatched h; bus := bus h;
     tasks := tasks h; client_calls := client_calls h;
     current_cameras := current_cameras h;
     coordinator_data := coordinator_data h; remote_login := remote_login h;
     internal_url := internal_url h; platforms_unload := platforms_unload h;
     ids_drawn := ids_drawn h |}.

Definition set_devices (x : list DeviceEntry) (h : hass) : hass :=
  {| entry := entry h; hass_data := hass_data h; webhooks := webhooks h;
     devices := x; dispatched := dispatched h; bus := bus h;
     tasks := tasks h; client_calls := client_calls h;
     current_cameras := current_cameras h;
     coordinator_data := coordinator_data h; remote_login := remote_login h;
     internal_url := internal_url h; platforms_unload := platforms_unload h;
     ids_drawn := ids_drawn h |}.

Definition set_dispatched (x : list (string * pydict)) (h : hass) : hass :=
  {| entry := entry h; hass_data := hass_data h; webhooks := webhooks h;
     devices := devices h; dispatched := x; bus := bus h;
     tasks := tasks h; client_calls := client_calls h;
     current_cameras := current_cameras h;
     coordinator_data := coordinator_data h; remote_login := remote_login h;
     internal_url := internal_url h; platforms_unload := platforms_unload h;
     ids_drawn := ids_drawn h |}.

Definition set_bus (x : list (string * pydict)) (h : hass) : hass :=
  {| entry := entry h; hass_data := hass_data h; webhooks := webhooks h;
     devices := devices h; dispatched := dispatched h; bus := x;
     tasks := tasks h; client_calls := client_calls h;
     current_cameras := current_cameras h;
     coordinator_data := coordinator_data h; remote_login := remote_login h;
     internal_url := internal_url h; platforms_unload := platforms_unload h;
     ids_drawn := ids_drawn h |}.

Definition set_tasks (x : list task) (h : hass) : hass :=
  {| entry := entry h; hass_data := hass_data h; webhooks := webhooks h;
     devices := devices h; dispatched := dispatched h; bus := bus h;
     tasks := x; client_calls := client_calls h;
     current_cameras := current_cameras h;
     coordinator_data := coordinator_data h; remote_login := remote_login h;
     internal_url := internal_url h; platforms_unload := platforms_unload h;
     ids_drawn := ids_drawn h |}.

Definition set_client_calls (x : list client_call) (h : hass) : hass :=
  {| entry := entry h; hass_data := hass_data h; webhooks := webhooks h;
     devices := devices h; dispatched := dispatched h; bus := bus h;
     tasks := tasks h; client_calls := x;
     current_cameras := current_cameras h;
     coordinator_data := coordinator_data h; remote_login := remote_login h;
     internal_url := internal_url h; platforms_unload := platforms_unload h;
     ids_drawn := ids_drawn h |}.

Definition set_current_cameras (x : gset (string * string)) (h : hass) : hass :=
  {| entry := entry h; hass_data := hass_data h; webhooks := webhooks h;
     devices := devices h; dispatched := dispatched h; bus := bus h;
     tasks := tasks h; client_calls := client_calls h;
     current_cameras := x;
     coordinator_data := coordinator_data h; remote_login := remote_login h;
     internal_url := internal_url h; platforms_unload := platforms_unload h;
     ids_drawn := ids_drawn h |}.

Definition set_coordinator_data
    (x : option (gmap string (list (option pydict)))) (h : hass) : hass :=
  {| entry := entry h; hass_data := hass_data h; webhooks := webhooks h;
     devices := devices h; dispatched := dispatched h; bus := bus h;
     tasks := tasks h; client_calls := client_calls h;
     current_cameras := current_cameras h;
     coordinator_data := x; remote_login := remote_login h;
     internal_url := internal_url h; platforms_unload := platforms_unload h;
     ids_drawn := ids_drawn h |}.

Definition set_ids_drawn (x : nat) (h : hass) : hass :=
  {| entry := entry h; hass_data := hass_data h; webhooks := webhooks h;
     devices := devices h; dispatched := dispatched h; bus := bus h;
     tasks := tasks h; client_calls := client_calls h;
     current_cameras := current_cameras h;
     coordinator_data := coordinator_data h; remote_login := remote_login h;
     internal_url := internal_url h; platforms_unload := platforms_unload h;
     ids_drawn := x |}.

(** ** Stateful, raising computations

    [St S A] runs on a state [S]; [M] is the case of the hub alone, and
    a call that writes a camera dict in place runs on the hub together
    with that dict. *)

Definition St (S A : Type) : Type := S -> S * result A.

Definition M (A : Type) : Type := St hass A.

Definition ret {S A} (a : A) : St S A := fun h => (h, inr a).

Definition raise {S A} (e : exn) : St S A := fun h => (h, inl e).

Definition bind {S A B} (m : St S A) (k : A -> St S B) : St S B := fun h =>
  match m h with
  | (h', inl e) => (h', inl e)
  | (h', inr a) => k a h'
  end.

Notation "'let*' x := m 'in' k" := (bind m (fun x => k))
  (at level 10, x pattern, m at level 100, k at level 200).

Notation "m ;;; k" := (bind m (fun _ => k))
  (at level 100, k at level 200, right associativity).

Definition lift {S A} (r : result A) : St S A := fun h => (h, r).

Definition gets {S A} (f : S -> A) : St S A := fun h => (h, inr (f h)).

Definition modify {S} (f : S -> S) : St S unit := fun h => (f h, inr tt).

Definition when {S} (b : bool) (m : St S unit) : St S unit :=
  if b then m else ret tt.

(** A step on the hub inside a call that holds a camera dict. *)
Definition on_hub {A} (m : M A) : St (hass * pydict) A := fun s =>
  let (h', r) := m s.1 in ((h', s.2), r).

(** ** The device registry

    Modelled from the spec: the registry's operations ("creates
    corresponding hub-side device records", "mirrors camera add/remove
    events into the hub's device registry") are not among the sources. *)

Definition device_ids (reg : list DeviceEntry) : gset string :=
  list_to_set (dev_id <$> reg).

Definition device_matches (ids : gset (string * string)) (d : DeviceEntry) : bool :=
  bool_decide (set_Exists (fun i => i ∈ ids) (dev_identifiers d)).

(** The device as [async_get_or_create] leaves it: it joins the config
    entry, gains the identifiers and takes the descriptive fields. *)
Definition update_device (config_entry_id : string)
    (identifiers : gset (string * string)) (manufacturer model : string)
    (name : pyval) (d : DeviceEntry) : DeviceEntry :=
  {| dev_id := dev_id d;
     dev_identifiers := dev_identifiers d ∪ identifiers;
     dev_config_entries := dev_config_entries d ∪ {[config_entry_id]};
     dev_manufacturer := manufacturer;
     dev_model := model;
     dev_name := name |}.

(** Find the device with one of the identifiers and update it, or
    append a new device under the id [new_id]. *)
Fixpoint get_or_create (new_id config_entry_id : string)
    (identifiers : gset (string * string)) (manufacturer model : string)
    (name : pyval) (reg : list DeviceEntry) : list DeviceEntry * DeviceEntry :=
  match reg with
  | [] =>
      let d := {| dev_id := new_id; dev_identifiers := identifiers;
                  dev_config_entries := {[config_entry_id]};
                  dev_manufacturer := manufacturer; dev_model := model;
                  dev_name := name |} in
      ([d], d)
  | d :: reg' =>
      if device_matches identifiers d then
        let d' := update_device config_entry_id identifiers manufacturer
                    model name d in
        (d' :: reg', d')
      else
        let (r, x) := get_or_create new_id config_entry_id identifiers
                        manufacturer model name reg' in
        (d :: r, x)
  end.

(** [device_registry.async_get_or_create]: a new device gets an id that
    no device of the registry has. *)
Definition async_get_or_create (config_entry_id : string)
    (identifiers : gset (string * string)) (manufacturer model : string)
    (name : pyval) : M DeviceEntry := fun h =>
  let (reg, d) := get_or_create (fresh (device_ids (devices h)))
                    config_entry_id identifiers manufacturer model name
                    (devices h) in
  (set_devices reg h, inr d).

(** [device_registry.async_remove_device]. *)
Definition async_remove_device (device_id : string) : M unit :=
  modify (fun h =>
    set_devices
      (filter (fun d => dev_id d ≠ device_id) (devices h)) h).

(** [dr.async_entries_for_config_entry]. *)
Definition async_entries_for_config_entry (reg : list DeviceEntry)
    (config_entry_id : string) : list DeviceEntry :=
  filter (fun d => config_entry_id ∈ dev_config_entries d) reg.

(** [device_registry.async_get], a lookup in a dict keyed by the
    device ids: the device with this id, if any.  A list or a dict
    cannot be hashed, so that the lookup raises. *)
Definition async_get (reg : list DeviceEntry) (device_id : pyval)
    : result (option DeviceEntry) :=
  match device_id with
  | PStr i => inr (find (fun d => String.eqb (dev_id d) i) reg)
  | PList _ | PDict _ => inl TypeError
  | _ => inr None
  end.

(** ** The event bus

    Modelled from the hub's core, which is not among the sources:
    [hass.bus.async_fire] refuses an event type of more than
    [MAX_LENGTH_EVENT_EVENT_TYPE] characters. *)

Definition MAX_LENGTH_EVENT_EVENT_TYPE : nat := 64.

(** [len(s)]: the number of characters, which in a UTF-8 byte string
    is the number of bytes that do not continue a character
    (continuation bytes are [0x80] to [0xBF]). *)
Definition continues_character (c : ascii) : bool :=
  (128 <=? N_of_ascii c)%N && (N_of_ascii c <? 192)%N.

Fixpoint py_len (s : string) : nat :=
  match s with
  | EmptyString => 0
  | String c s' => (if continues_character c then 0 else 1) + py_len s'
  end.

Definition async_fire (event_type : string) (event_data : pydict) : M unit :=
  if (MAX_LENGTH_EVENT_EVENT_TYPE <? py_len event_type)%nat
  then raise MaxLengthExceeded
  else modify (fun h => set_bus (bus h ++ [(event_type, event_data)]) h).

(** Modelled from the spec: the names under which the webhook receiver
    reads the payload and publishes the event ([DOMAIN] and
    [ATTR_EVENT_TYPE], [ATTR_WEBHOOK_ID] of [const.py], [ATTR_DEVICE_ID]
    and [ATTR_NAME] of the hub's constants) are not among the sources;
    the event is "motioneye.<event_type>" and the keys are
    "device_id", "event_type", "name" and "webhook_id". *)
Definition DOMAIN : string := "motioneye".
Definition ATTR_DEVICE_ID : string := "device_id".
Definition ATTR_EVENT_TYPE : string := "event_type".
Definition ATTR_NAME : string := "name".
Definition ATTR_WEBHOOK_ID : string := "webhook_id".

(** A hub on which nothing has happened yet, seen from one config
    entry: the registry, the last poll, the answer of the remote device
    to a login and the hub's URL are given. *)
Definition hub (e : ConfigEntry) (reg : list DeviceEntry)
    (polled : option (gmap string (list (option pydict))))
    (login : login_outcome) (url : option string) : hass :=
  {| entry := e; hass_data := ∅; webhooks := ∅; devices := reg;
     dispatched := []; bus := []; tasks := []; client_calls := [];
     current_cameras := ∅; coordinator_data := polled;
     remote_login := login; internal_url := url;
     platforms_unload := true; ids_drawn := 0 |}.

Section MotionEye.

(** Constants of [const.py], [homeassistant.const] and
    [motioneye_client.const], none of which is among the sources. *)
Variable WEB_HOOK_SENTINEL_KEY WEB_HOOK_SENTINEL_VALUE : string.
Variable KEY_HTTP_METHOD_POST_JSON : string.
Variable CONF_WEBHOOK_SET CONF_WEBHOOK_SET_OVERWRITE : string.
Variable DEFAULT_WEBHOOK_SET DEFAULT_WEBHOOK_SET_OVERWRITE : pyval.
Variable CONF_URL CONF_WEBHOOK_ID : string.
Variable KEY_CAMERAS KEY_ID KEY_NAME : string.
Variable KEY_WEB_HOOK_NOTIFICATIONS_URL : string.
Variable KEY_WEB_HOOK_NOTIFICATIONS_HTTP_METHOD : string.
Variable KEY_WEB_HOOK_NOTIFICATIONS_ENABLED : string.
Variable KEY_WEB_HOOK_STORAGE_URL : string.
Variable KEY_WEB_HOOK_STORAGE_HTTP_METHOD : string.
Variable KEY_WEB_HOOK_STORAGE_ENABLED : string.
Variable KEY_WEB_HOOK_CONVERSION_SPECIFIERS : gmap string string.
Variable EVENT_MOTION_DETECTED EVENT_FILE_STORED : string.
Variable EVENT_MOTION_DETECTED_KEYS EVENT_FILE_STORED_KEYS : list string.
Variable MOTIONEYE_MANUFACTURER : string.
(** [SIGNAL_CAMERA_ADD.format(entry_id)]. *)
Variable SIGNAL_CAMERA_ADD : string -> string.

(** Library functions: [urllib.parse.urljoin], the webhook component's
    [async_generate_path] and [async_generate_id] (the n-th id it
    draws), and the text of floats and containers. *)
Variable urljoin : string -> string -> string.
Variable async_generate_path : string -> string.
Variable async_generate_id : nat -> string.
Variable repr_container : pyval -> string.

(** ** Identifiers *)

(** [get_motioneye_device_identifier]. *)
Definition get_motioneye_device_identifier (config_entry_id : string)
    (camera_id : pyval) : string * string :=
  (DOMAIN, config_entry_id ++ "_" ++ py_str repr_container camera_id).

(** [get_motioneye_entity_unique_id]. *)
Definition get_motioneye_entity_unique_id (config_entry_id : string)
    (camera_id : pyval) (entity_type : string) : string :=
  config_entry_id ++ "_" ++ py_str repr_container camera_id
    ++ "_" ++ entity_type.

(** [is_acceptable_camera]: the camera is neither [None] nor empty
    and has both keys. *)
Definition is_acceptable_camera (camera : option pydict) : bool :=
  match camera with
  | None => false
  | Some c =>
      truthy (PDict c)
      && bool_decide (is_Some (c !! KEY_ID))
      && bool_decide (is_Some (c !! KEY_NAME))
  end.

(** ** Webhook configuration *)

(** [async_generate_motioneye_webhook]: [None] when the hub has no
    URL. *)
Definition async_generate_motioneye_webhook (webhook_id : string)
    : M (option string) :=
  let* u := gets internal_url in
  ret ((fun base => base ++ async_generate_path webhook_id) <$> u).

(** [f"{WEB_HOOK_SENTINEL_KEY}={WEB_HOOK_SENTINEL_VALUE}"]. *)
Definition sentinel : string :=
  WEB_HOOK_SENTINEL_KEY ++ "=" ++ WEB_HOOK_SENTINEL_VALUE.

(** [_is_recognized_web_hook]: whether this integration set a web
    hook. *)
Definition _is_recognized_web_hook (url : pyval) : result bool :=
  py_in sentinel url.

(** The first parenthesis of the test in [_set_webhook]: the hook may
    be written. *)
Definition may_write (opts : pydict) (key_url : string)
    (camera : pydict) : result bool :=
  or_else
    (truthy (dict_get_default opts CONF_WEBHOOK_SET_OVERWRITE
               DEFAULT_WEBHOOK_SET_OVERWRITE))
    (or_else
       (negb (truthy (dict_get camera key_url)))
       (match camera !! key_url with
        | Some v => _is_recognized_web_hook v
        | None => inl (KeyError key_url)
        end)).

(** The second parenthesis: the hook is not yet what it should be. *)
Definition needs_write (url key_url key_method key_enabled : string)
    (camera : pydict) : bool :=
  negb (truthy (dict_get_default camera key_enabled (PBool false)))
  || negb (eq_str (dict_get camera key_method) KEY_HTTP_METHOD_POST_JSON)
  || negb (eq_str (dict_get camera key_url) url).

(** [_set_webhook]: the camera dict as the call leaves it, and the
    returned flag.  [opts] is [entry.options]. *)
Definition _set_webhook (opts : pydict)
    (url key_url key_method key_enabled : string)
    (camera : pydict) : result (pydict * bool) :=
  match may_write opts key_url camera with
  | inl e => inl e
  | inr ok =>
      if ok && needs_write url key_url key_method key_enabled camera then
        inr (<[key_url := PStr url]>
               (<[key_method := PStr KEY_HTTP_METHOD_POST_JSON]>
                  (<[key_enabled := PBool true]> camera)),
             true)
      else inr (camera, false)
  end.

(** [{k: KEY_WEB_HOOK_CONVERSION_SPECIFIERS[k] for k in ks}], added to
    [d]. *)
Fixpoint conversion_specifiers (ks : list string) (d : odict)
    : result odict :=
  match ks with
  | [] => inr d
  | k :: ks' =>
      match KEY_WEB_HOOK_CONVERSION_SPECIFIERS !! k with
      | None => inl (KeyError k)
      | Some v => conversion_specifiers ks' (odict_set k v d)
      end
  end.

(** The dict that [_build_url] passes to [urlencode]. *)
Definition query_params (device : DeviceEntry) (event_type : string)
    (keys : list string) : result odict :=
  match conversion_specifiers (sorted keys) [] with
  | inl e => inl e
  | inr d =>
      inr (odict_set ATTR_DEVICE_ID (dev_id device)
             (odict_set ATTR_EVENT_TYPE event_type
                (odict_set WEB_HOOK_SENTINEL_KEY WEB_HOOK_SENTINEL_VALUE d)))
  end.

(** [_build_url]. *)
Definition _build_url (device : DeviceEntry) (base event_type : string)
    (keys : list string) : result string :=
  match query_params device event_type keys with
  | inl e => inl e
  | inr d => inr (urljoin base ("?" ++ urlencode d "%{}"))
  end.

(** [_set_webhook] on the camera dict of the call: the three fields
    are written in place. *)
Definition set_webhook_in_place (opts : pydict)
    (url key_url key_method key_enabled : string)
    : St (hass * pydict) bool := fun s =>
  match _set_webhook opts url key_url key_method key_enabled s.2 with
  | inl e => (s, inl e)
  | inr (camera, flag) => ((s.1, camera), inr flag)
  end.

(** [_add_camera]: the hub and the camera dict as the call leaves
    them, whether it returns or raises. *)
Definition _add_camera (camera_id : pyval) (camera : pydict)
    (device_identifier : string * string) (h : hass)
    : (hass * pydict) * result unit :=
  (let* e := on_hub (gets entry) in
   let* camera := gets snd in
   let* name := lift (py_getitem (PDict camera) KEY_NAME) in
   let* device :=
     on_hub (async_get_or_create (entry_id e) {[device_identifier]}
               MOTIONEYE_MANUFACTURER MOTIONEYE_MANUFACTURER name) in
   (if truthy (dict_get_default (options e) CONF_WEBHOOK_SET
                 DEFAULT_WEBHOOK_SET)
    then
      let* webhook_id :=
        lift (match data e !! CONF_WEBHOOK_ID with
              | Some w => inr w
              | None => inl (KeyError CONF_WEBHOOK_ID)
              end) in
      let* url := on_hub (async_generate_motioneye_webhook webhook_id) in
      match url with
      | Some url =>
          if negb (String.eqb url "") then
            let* motion_url :=
              lift (_build_url device url EVENT_MOTION_DETECTED
                      EVENT_MOTION_DETECTED_KEYS) in
            let* set_motion_event :=
              set_webhook_in_place (options e) motion_url
                KEY_WEB_HOOK_NOTIFICATIONS_URL
                KEY_WEB_HOOK_NOTIFICATIONS_HTTP_METHOD
                KEY_WEB_HOOK_NOTIFICATIONS_ENABLED in
            let* storage_url :=
              lift (_build_url device url EVENT_FILE_STORED
                      EVENT_FILE_STORED_KEYS) in
            let* set_storage_event :=
              set_webhook_in_place (options e) storage_url
                KEY_WEB_HOOK_STORAGE_URL
                KEY_WEB_HOOK_STORAGE_HTTP_METHOD
                KEY_WEB_HOOK_STORAGE_ENABLED in
            when (set_motion_event || set_storage_event)
              (let* camera := gets snd in
               on_hub (modify (fun h =>
                 set_tasks (tasks h ++ [async_set_camera camera_id camera])
                   h)))
          else ret tt
      | None => ret tt
      end
    else ret tt)
   ;;; let* camera := gets snd in
   on_hub (modify (fun h =>
     set_dispatched
       (dispatched h ++ [(SIGNAL_CAMERA_ADD (entry_id e), camera)]) h)))
    (h, camera).

(** ** Camera reconciliation *)

(** The camera dicts are those of [coordinator.data[KEY_CAMERAS]]:
    what a call writes into the [i]-th of them is there for every
    later reader of the coordinator's data. *)
Definition store_camera (i : nat) (camera : pydict) (h : hass) : hass :=
  set_coordinator_data
    ((fun d =>
        match d !! KEY_CAMERAS with
        | Some cameras => <[KEY_CAMERAS := <[i := Some camera]> cameras]> d
        | None => d
        end) <$> coordinator_data h) h.

(** A call on the [i]-th camera dict of the coordinator's data. *)
Definition in_place (i : nat)
    (call : hass -> (hass * pydict) * result unit) : M unit := fun h =>
  let (s, r) := call h in (store_camera i s.2 s.1, r).

(** The first loop of [_async_process_motioneye_cameras], over the
    cameras still to visit, the first of which is the [i]-th of the
    list.  [None] is the [return] taken at a camera that is not
    acceptable; otherwise the loop ends with the set
    [inbound_camera]. *)
Fixpoint add_new_cameras (i : nat) (cameras : list (option pydict))
    (inbound_camera : gset (string * string))
    : M (option (gset (string * string))) :=
  match cameras with
  | [] => ret (Some inbound_camera)
  | camera :: rest =>
      if negb (is_acceptable_camera camera) then ret None
      else
        match camera with
        | None => raise TypeError
        | Some camera =>
            let* camera_id := lift (py_getitem (PDict camera) KEY_ID) in
            let* e := gets entry in
            let device_identifier :=
              get_motioneye_device_identifier (entry_id e) camera_id in
            let inbound_camera := inbound_camera ∪ {[device_identifier]} in
            let* current := gets current_cameras in
            if bool_decide (device_identifier ∈ current) then
              add_new_cameras (S i) rest inbound_camera
            else
              modify (fun h =>
                set_current_cameras
                  (current_cameras h ∪ {[device_identifier]}) h)
              ;;; in_place i (_add_camera camera_id camera device_identifier)
              ;;; add_new_cameras (S i) rest inbound_camera
        end
  end.

(** The second loop, over the devices of the config entry as listed
    before the loop starts: a device none of whose identifiers is in
    [inbound_camera] is removed. *)
Fixpoint remove_stale_devices (entries : list DeviceEntry)
    (inbound_camera : gset (string * string)) : M unit :=
  match entries with
  | [] => ret tt
  | device_entry :: rest =>
      when (negb (device_matches inbound_camera device_entry))
        (async_remove_device (dev_id device_entry))
      ;;; remove_stale_devices rest inbound_camera
  end.

(** [_async_process_motioneye_cameras], the listener the coordinator
    calls after each poll. *)
Definition _async_process_motioneye_cameras : M unit :=
  let* coordinator := gets coordinator_data in
  match coordinator with
  | None => ret tt
  | Some d =>
      match d !! KEY_CAMERAS with
      | None => ret tt
      | Some cameras =>
          let* r := add_new_cameras 0 cameras ∅ in
          match r with
          | None => ret tt
          | Some inbound_camera =>
              let* e := gets entry in
              let* reg := gets devices in
              remove_stale_devices
                (async_entries_for_config_entry reg (entry_id e))
                inbound_camera
          end
      end
  end.

(** ** Setting up and unloading an entry *)

(** Modelled from the spec: the webhook component ("an inbound HTTP
    callback registered with the host framework") is not among the
    sources.  Registering an id that is taken raises. *)
Definition webhook_register (domain name webhook_id : string)
    (h : handler) : M unit :=
  let* table := gets webhooks in
  match table !! webhook_id with
  | Some _ => raise ValueError
  | None =>
      modify (set_webhooks
                (<[webhook_id := {| wh_domain := domain; wh_name := name;
                                    wh_handler := h |}]> table))
  end.

Definition webhook_unregister (webhook_id : string) : M unit :=
  modify (fun h => set_webhooks (delete webhook_id (webhooks h)) h).

Definition call_client (c : client_call) : M unit :=
  modify (fun h => set_client_calls (client_calls h ++ [c]) h).

Definition entry_data_item (k : string) : M string :=
  let* e := gets entry in
  match data e !! k with
  | Some v => ret v
  | None => raise (KeyError k)
  end.

(** [hass.data.setdefault(DOMAIN, {})]. *)
Definition setdefault_domain (h : hass) : hass :=
  match hass_data h !! DOMAIN with
  | Some _ => h
  | None => set_hass_data (<[DOMAIN := ∅]> (hass_data h)) h
  end.

(** [async_setup_entry]. *)
Definition async_setup_entry : M bool :=
  modify setdefault_domain
  ;;; let* url := entry_data_item CONF_URL in
  call_client async_client_login
  ;;; let* answer := gets remote_login in
  match answer with
  | LoginInvalidAuth =>
      call_client async_client_close ;;; raise ConfigEntryAuthFailed
  | LoginClientError =>
      call_client async_client_close ;;; raise ConfigEntryNotReady
  | LoginOtherError => raise OtherError
  | LoginOk => ret tt
  end
  ;;; let* e := gets entry in
  when (negb (bool_decide (is_Some (data e !! CONF_WEBHOOK_ID))))
    (let* n := gets ids_drawn in
     modify (fun h =>
       set_ids_drawn (S n)
         (set_entry
            {| entry_id := entry_id e;
               data := <[CONF_WEBHOOK_ID := async_generate_id n]> (data e);
               options := options e |} h)))
  ;;; let* webhook_id := entry_data_item CONF_WEBHOOK_ID in
  webhook_register DOMAIN "motionEye" webhook_id handle_webhook_ref
  ;;; let* all := gets hass_data in
  match all !! DOMAIN with
  | None => raise (KeyError DOMAIN)
  | Some entries =>
      modify (set_hass_data
                (<[DOMAIN :=
                    <[entry_id e := {| CONF_CLIENT := url;
                                       CONF_COORDINATOR := DOMAIN |}]>
                      entries]> all))
  end
  ;;; modify (set_current_cameras ∅)
  ;;; modify (fun h =>
        set_tasks (tasks h ++ [setup_then_listen (entry_id e)]) h)
  ;;; ret true.

(** [async_unload_entry]. *)
Definition async_unload_entry : M bool :=
  let* webhook_id := entry_data_item CONF_WEBHOOK_ID in
  webhook_unregister webhook_id
  ;;; let* unload_ok := gets platforms_unload in
  (if unload_ok then
     let* e := gets entry in
     let* all := gets hass_data in
     match all !! DOMAIN with
     | None => raise (KeyError DOMAIN)
     | Some entries =>
         match entries !! entry_id e with
         | None => raise (KeyError (entry_id e))
         | Some config_data =>
             modify (set_hass_data
                       (<[DOMAIN := delete (entry_id e) entries]> all))
             ;;; call_client async_client_close
         end
     end
   else ret tt)
  ;;; ret unload_ok.

(** ** The webhook receiver *)

(** The request body: [request.json()] either raises a decoding error
    or gives the decoded value. *)
Inductive Request : Type :=
  | undecodable
  | json (v : pyval).

Definition bad_request (msg : string) : option Response :=
  Some {| text := msg; status := BAD_REQUEST |}.

(** The loop over [(ATTR_DEVICE_ID, ATTR_EVENT_TYPE)]: the first key
    that is not [in data], if any. *)
Fixpoint first_missing (keys : list string) (v : pyval)
    : result (option string) :=
  match keys with
  | [] => inr None
  | key :: rest =>
      match py_in key v with
      | inl e => inl e
      | inr false => inr (Some key)
      | inr true => first_missing rest v
      end
  end.

(** [{ATTR_DEVICE_ID: device.id, ATTR_NAME: device.name,
    ATTR_WEBHOOK_ID: webhook_id, **payload}]: the payload's items are
    written last. *)
Definition event_data (device : DeviceEntry) (webhook_id : string)
    (payload : pydict) : pydict :=
  payload ∪
  <[ATTR_WEBHOOK_ID := PStr webhook_id]>
    (<[ATTR_NAME := dev_name device]>
       (<[ATTR_DEVICE_ID := PStr (dev_id device)]> ∅)).

(** [handle_webhook]: [None] or the response. *)
Definition handle_webhook (webhook_id : string) (request : Request)
    : M (option Response) :=
  match request with
  | undecodable => ret (bad_request "Could not decode request")
  | json v =>
      let* missing := lift (first_missing [ATTR_DEVICE_ID; ATTR_EVENT_TYPE] v) in
      match missing with
      | Some key => ret (bad_request ("Missing webhook parameter: " ++ key))
      | None =>
          let* event_type := lift (py_getitem v ATTR_EVENT_TYPE) in
          let* device_id := lift (py_getitem v ATTR_DEVICE_ID) in
          let* reg := gets devices in
          let* device := lift (async_get reg device_id) in
          match device with
          | None =>
              ret (bad_request
                     ("Device not found: " ++ py_str repr_container device_id))
          | Some device =>
              let* payload :=
                lift (match v with
                      | PDict d => inr d
                      | _ => inl TypeError
                      end) in
              async_fire (DOMAIN ++ "." ++ py_str repr_container event_type)
                (event_data device webhook_id payload)
              ;;; ret None
          end
      end
  end.

(** The cameras that [_async_process_motioneye_cameras] visits: those
    before the first camera that is not acceptable. *)
Fixpoint acceptable_prefix (cameras : list (option pydict))
    : list (option pydict) :=
  match cameras with
  | [] => []
  | camera :: rest =>
      if is_acceptable_camera camera then camera :: acceptable_prefix rest
      else []
  end.

(** The device identifier derived from a camera of the entry. *)
Definition camera_identifier (e : ConfigEntry) (camera : option pydict)
    : string * string :=
  get_motioneye_device_identifier (entry_id e)
    (dict_get (default ∅ camera) KEY_ID).

Definition camera_identifiers (e : ConfigEntry)
    (cameras : list (option pydict)) : gset (string * string) :=
  list_to_set (camera_identifier e <$> cameras).

(** The runtime state that [hass.data[DOMAIN]] holds for an entry. *)
Definition entry_state (h : hass) (id : string) : option entry_runtime :=
  hass_data h !! DOMAIN ≫= (fun entries => entries !! id).

(** The requests that [handle_webhook] turns away: the body is not
    JSON, or the JSON object lacks one of the two keys, or the
    registry is asked for the device and does not have it. *)
Definition rejected (request : Request) (h : hass) : Prop :=
  request = undecodable
  \/ exists d : pydict,
       request = json (PDict d)
       /\ (d !! ATTR_DEVICE_ID = None
           \/ d !! ATTR_EVENT_TYPE = None
           \/ exists device_id,
                d !! ATTR_DEVICE_ID = Some device_id
                /\ async_get (devices h) device_id = inr None).

(** ** Looking up a camera *)

(** [v == z] for an integer [z]: an integer and a float compare by
    value and a boolean as 0 or 1; nothing else is equal to an
    integer. *)
Definition eq_int (v : pyval) (z : Z) : bool :=
  match v with
  | PInt z' => (z' =? z)%Z
  | PBool b => (Z.b2z b =? z)%Z
  | PFloat f => float_eq_int f z
  | _ => false
  end.

(** The loop of [get_camera_from_cameras]: the first camera whose
    [KEY_ID] item equals [camera_id].  A [None] among the cameras has
    no [get] (an [AttributeError], the [OtherError] here). *)
Fixpoint find_camera (camera_id : Z) (cameras : list (option pydict))
    : result (option pydict) :=
  match cameras with
  | [] => inr None
  | camera :: rest =>
      match camera with
      | None => inl OtherError
      | Some c =>
          if eq_int (dict_get c KEY_ID) camera_id then inr (Some c)
          else find_camera camera_id rest
      end
  end.

(** [data.get(KEY_CAMERAS, []) if data else []]. *)
Definition cameras_of
    (poll : option (gmap string (list (option pydict))))
    : list (option pydict) :=
  match poll with
  | None => []
  | Some d => if bool_decide (d = ∅) then [] else default [] (d !! KEY_CAMERAS)
  end.

(** [get_camera_from_cameras]. *)
Definition get_camera_from_cameras (camera_id : Z)
    (poll : option (gmap string (list (option pydict))))
    : result (option pydict) :=
  find_camera camera_id (cameras_of poll).

(** ** Entities *)

(** What [MotionEyeEntity.__init__] stores; the client, the coordinator
    and the entity description are objects it only keeps. *)
Record MotionEyeEntity : Type := {
  _camera_id : pyval;
  _device_identifier : string * string;
  _unique_id : string;
  _camera : option pydict;
  _options : pydict;
}.

(** [MotionEyeEntity.__init__]. *)
Definition MotionEyeEntity_init (config_entry_id type_name : string)
    (camera : pydict) (opts : pydict) : result MotionEyeEntity :=
  match camera !! KEY_ID with
  | None => inl (KeyError KEY_ID)
  | Some camera_id =>
      inr {| _camera_id := camera_id;
             _device_identifier :=
               get_motioneye_device_identifier config_entry_id camera_id;
             _unique_id :=
               get_motioneye_entity_unique_id config_entry_id camera_id
                 type_name;
             _camera := Some camera;
             _options := opts |}
  end.

(** The [unique_id] property. *)
Definition unique_id (self : MotionEyeEntity) : string := _unique_id self.

(** The [device_info] property: [{"identifiers": {identifier}}]. *)
Definition device_info (self : MotionEyeEntity)
    : gmap string (gset (string * string)) :=
  {["identifiers" := {[_device_identifier self]}]}.

(** The parts of the hub that camera reconciliation has no business
    with: everything but the registry, the dispatcher, the task queue,
    [current_cameras] and the camera dicts of the coordinator's
    data. *)
Definition untouched (h h' : hass) : Prop :=
  entry h' = entry h
  /\ hass_data h' = hass_data h
  /\ webhooks h' = webhooks h
  /\ bus h' = bus h
  /\ client_calls h' = client_calls h
  /\ remote_login h' = remote_login h
  /\ internal_url h' = internal_url h
  /\ platforms_unload h' = platforms_unload h
  /\ ids_drawn h' = ids_drawn h.

(** The six fields of a camera dict that [_add_camera] can write. *)
Definition hook_fields : list string :=
  [KEY_WEB_HOOK_NOTIFICATIONS_URL; KEY_WEB_HOOK_NOTIFICATIONS_HTTP_METHOD;
   KEY_WEB_HOOK_NOTIFICATIONS_ENABLED; KEY_WEB_HOOK_STORAGE_URL;
   KEY_WEB_HOOK_STORAGE_HTTP_METHOD; KEY_WEB_HOOK_STORAGE_ENABLED].

(** A camera dict after hooks were written into it: every other field
    is as it was, and no field is lost. *)
Definition hooks_written (camera camera' : pydict) : Prop :=
  (forall k, k ∉ hook_fields -> camera' !! k = camera !! k)
  /\ (forall k, is_Some (camera !! k) -> is_Some (camera' !! k)).

Definition camera_hooks_written (camera camera' : option pydict) : Prop :=
  match camera, camera' with
  | None, None => True
  | Some c, Some c' => hooks_written c c'
  | _, _ => False
  end.

(** The coordinator's data after hooks were written: the same entries,
    and the same cameras in the same places, up to their hooks. *)
Definition polled_hooks_written
    (polled polled' : option (gmap string (list (option pydict)))) : Prop :=
  match polled, polled' with
  | None, None => True
  | Some d, Some d' =>
      (forall k, k <> KEY_CAMERAS -> d' !! k = d !! k)
      /\ match d !! KEY_CAMERAS, d' !! KEY_CAMERAS with
         | None, None => True
         | Some cameras, Some cameras' =>
             Forall2 camera_hooks_written cameras cameras'
         | _, _ => False
         end
  | _, _ => False
  end.

(** A number: [True] and [False] are numbers too. *)
Definition is_number (v : pyval) : bool :=
  match v with
  | PBool _ | PInt _ | PFloat _ => true
  | _ => false
  end.

(** ** The query string, as it is to be

    The parameters in their order, each written [name=value], with [&]
    between two of them.  In a name or a value a space is written [+];
    a letter, a digit and each of [_.-~%{}] is written as it is; any
    other byte is written [%XX], in upper-case hexadecimal. *)

Definition written_as_is (c : ascii) : bool :=
  let n := N_of_ascii c in
  ((65 <=? n) && (n <=? 90))%N || ((97 <=? n) && (n <=? 122))%N
  || ((48 <=? n) && (n <=? 57))%N
  || bool_decide (c ∈ ["_"; "."; "-"; "~"; "%"; "{"; "}"]%char).

Definition written (c : ascii) : string :=
  if Ascii.eqb c " " then "+"
  else if written_as_is c then String c ""
  else percent_hex c.

Fixpoint written_text (s : string) : string :=
  match s with
  | EmptyString => ""
  | String c s' => written c ++ written_text s'
  end.

Definition query_string (params : odict) : string :=
  String.concat "&"
    ((fun kv => written_text kv.1 ++ "=" ++ written_text kv.2) <$> params).

(** The same with every name and value taken as it is. *)
Definition plain_query_string (params : odict) : string :=
  String.concat "&" ((fun kv => kv.1 ++ "=" ++ kv.2) <$> params).

(** A text in which nothing is to be encoded. *)
Definition plain (s : string) : bool :=
  forallb written_as_is (String.list_ascii_of_string s).

(** The number of occurrences of a character in a string. *)
Fixpoint count_char (c : ascii) (s : string) : nat :=
  match s with
  | EmptyString => 0
  | String x s' => (if Ascii.eqb x c then 1 else 0) + count_char c s'
  end.

(** * Properties *)

(** ** [_set_webhook] *)

Definition overwrite_requested (opts : pydict) : bool :=
  truthy (dict_get_default opts CONF_WEBHOOK_SET_OVERWRITE
            DEFAULT_WEBHOOK_SET_OVERWRITE).

(** The camera dict with the three hook fields written. *)
Definition hook_written (url key_url key_method key_enabled : string)
    (camera : pydict) : pydict :=
  <[key_url := PStr url]>
    (<[key_method := PStr KEY_HTTP_METHOD_POST_JSON]>
       (<[key_enabled := PBool true]> camera)).


Lemma set_webhook_true opts url key_url key_method key_enabled camera camera' :
  _set_webhook opts url key_url key_method key_enabled camera
    = inr (camera', true) <->
  may_write opts key_url camera = inr true
  /\ needs_write url key_url key_method key_enabled camera = true
  /\ camera' = hook_written url key_url key_method key_enabled camera.
Proof.
  unfold _set_webhook, hook_written.
  destruct (may_write opts key_url camera) as [e|[]]; simpl;
    [by split; [|intros []]| |by split; [|intros []]].
  destruct (needs_write _ _ _ _ _).
  - split; [by intros [= <-]|by intros (_ & _ & ->)].
  - by split; [|intros (_ & ? & _)].
Qed.

Lemma set_webhook_false opts url key_url key_method key_enabled camera camera' :
  _set_webhook opts url key_url key_method key_enabled camera
    = inr (camera', false) -> camera' = camera.
Proof.
  unfold _set_webhook.
  destruct (may_write opts key_url camera) as [e|[]]; simpl; [done| |].
  - destruct (needs_write _ _ _ _ _); by intros [=].
  - by intros [=].
Qed.


(** C2: for field keys as [_add_camera] passes them, the URL field
    not being the method field, a call that returned [True] is
    followed by a call with the same arguments that returns [False]
    and leaves the camera dict as it is.  (Were the enabled field the
    URL field or the method field, what is written there last would
    have to be truthy: a target URL, or a [KEY_HTTP_METHOD_POST_JSON],
    that is not empty.) *)
Theorem set_webhook_idempotent opts url key_url key_method key_enabled
    camera camera' :
  key_url <> key_method ->
  (key_enabled = key_url -> url <> "") ->
  (key_enabled = key_method -> KEY_HTTP_METHOD_POST_JSON <> "") ->
  _set_webhook opts url key_url key_method key_enabled camera
    = inr (camera', true) ->
  _set_webhook opts url key_url key_method key_enabled camera'
    = inr (camera', false).
Proof.
  intros Hum Hue Hme H. apply set_webhook_true in H as (_ & _ & ->).
  assert (forall s : string, s <> "" -> negb (String.eqb s "") = true)
    as Hne.
  { intros s Hs. apply negb_true_iff. by apply String.eqb_neq. }
  assert (truthy (dict_get_default
                    (hook_written url key_url key_method key_enabled camera)
                    key_enabled (PBool false)) = true) as Henabled.
  { unfold dict_get_default, hook_written.
    destruct (decide (key_enabled = key_url)) as [->|Hne1].
    { rewrite lookup_insert_eq. simpl. auto. }
    rewrite (lookup_insert_ne _ key_url key_enabled) by done.
    destruct (decide (key_enabled = key_method)) as [->|Hne2].
    { rewrite lookup_insert_eq. simpl. auto. }
    rewrite (lookup_insert_ne _ key_method key_enabled) by done.
    by rewrite lookup_insert_eq. }
  unfold _set_webhook, needs_write. rewrite Henabled.
  unfold hook_written, may_write, or_else, dict_get,
    _is_recognized_web_hook.
  rewrite lookup_insert_eq.
  rewrite (lookup_insert_ne _ key_url key_method) by done.
  rewrite lookup_insert_eq. simpl.
  rewrite !String.eqb_refl. simpl. clear Henabled.
  destruct (truthy _); simpl; [done|].
  destruct (negb _); simpl; [done|]. by rewrite andb_false_r.
Qed.

(** Drop the constants a statement does not mention, so that proof
    search leaves them alone. *)
Ltac drop_unused :=
  repeat match goal with
         | x : ?T |- _ =>
             lazymatch type of T with
             | Prop => fail
             | _ => clear x
             end
         end.

(** Unfold the plumbing of stateful computations. *)
Ltac run :=
  repeat (progress (unfold entry_data_item, call_client, webhook_register,
                      webhook_unregister, async_fire, on_hub, in_place,
                      when, bind, lift, gets, modify, ret, raise in *;
                    simpl in *)).

(** ** The order of [sorted] *)

Lemma str_le_trans a b c : str_le a b -> str_le b c -> str_le a c.
Proof.
  unfold str_le, String.leb. revert b c.
  induction a as [|x a IH]; intros [|y b] [|z c]; simpl; try done.
  unfold Ascii.compare.
  destruct (N.compare_spec (N_of_ascii x) (N_of_ascii y)) as [Hxy|Hxy|Hxy];
    destruct (N.compare_spec (N_of_ascii y) (N_of_ascii z)) as [Hyz|Hyz|Hyz];
    try done.
  - rewrite Hxy, Hyz, N.compare_refl. apply IH.
  - intros _ _. rewrite Hxy. by apply N.compare_lt_iff in Hyz as ->.
  - intros _ _. rewrite <- Hyz. by apply N.compare_lt_iff in Hxy as ->.
  - intros _ _.
    assert (N_of_ascii x < N_of_ascii z)%N as Hxz by lia.
    by apply N.compare_lt_iff in Hxz as ->.
Qed.

#[global] Instance str_le_transitive : Transitive str_le.
Proof. intros a b c. apply str_le_trans. Qed.

#[global] Instance str_le_total : Total str_le.
Proof. intros a b. apply String.leb_total. Qed.

#[global] Instance str_le_antisymm : AntiSymm (=) str_le.
Proof. intros a b. apply String.leb_antisym. Qed.

Lemma sorted_strongly (l : list string) : StronglySorted str_le (sorted l).
Proof. apply StronglySorted_merge_sort; apply _. Qed.

Lemma sorted_elem_of (l : list string) k : k ∈ sorted l <-> k ∈ l.
Proof. unfold sorted. by rewrite merge_sort_Permutation. Qed.

(** ** Insertion-ordered dicts *)

Lemma odict_set_present k v (d : odict) :
  k ∈ d.*1 -> (odict_set k v d).*1 = d.*1.
Proof.
  induction d as [|[k' v'] d IH]; simpl; [by intros ?%elem_of_nil|].
  destruct (String.eqb_spec k' k) as [->|Hne]; [done|].
  intros [?|?]%elem_of_cons; [congruence|]. simpl. f_equal. auto.
Qed.

Lemma odict_set_absent k v (d : odict) :
  k ∉ d.*1 -> odict_set k v d = (d ++ [(k, v)])%list.
Proof.
  induction d as [|[k' v'] d IH]; simpl; [done|].
  intros Hk. apply not_elem_of_cons in Hk as [Hne Hk].
  destruct (String.eqb_spec k' k) as [->|_]; [done|].
  f_equal. auto.
Qed.

Lemma odict_set_elem_of k v (d : odict) kv :
  kv ∈ odict_set k v d -> kv ∈ d \/ kv = (k, v).
Proof.
  induction d as [|[k' v'] d IH]; simpl.
  - intros ?%list_elem_of_singleton. auto.
  - destruct (String.eqb_spec k' k) as [->|_].
    + intros [->|?]%elem_of_cons; [auto|]. left. by apply elem_of_cons; right.
    + intros [->|?]%elem_of_cons; [left; by apply elem_of_cons; left|].
      destruct IH as [?|?]; [done| |by right].
      left. by apply elem_of_cons; right.
Qed.

(** ** [quote_plus], character by character *)

Lemma replace_space_plus_app s1 s2 :
  replace_space_plus (s1 ++ s2)
  = replace_space_plus s1 ++ replace_space_plus s2.
Proof. induction s1 as [|c s1 IH]; simpl; [done|]. by rewrite IH. Qed.

Lemma replace_space_plus_percent_hex c :
  replace_space_plus (percent_hex c) = percent_hex c.
Proof. destruct c as [[] [] [] [] [] [] [] []]; reflexivity. Qed.

Lemma ascii_in_cons c x s :
  ascii_in c (String x s) = Ascii.eqb c x || ascii_in c s.
Proof. reflexivity. Qed.

Lemma ascii_in_app c s1 s2 :
  ascii_in c (s1 ++ s2) = ascii_in c s1 || ascii_in c s2.
Proof.
  induction s1 as [|c1 s1 IH]; [done|].
  change (String c1 s1 ++ s2) with (String c1 (s1 ++ s2)).
  by rewrite !ascii_in_cons, IH, orb_assoc.
Qed.

Lemma quote_no_space s safe :
  ascii_in " " s = false -> quote s safe = quote_plus_chars safe s.
Proof.
  induction s as [|c s IH]; [done|].
  rewrite ascii_in_cons. intros [Hc Hs]%orb_false_iff.
  cbn [quote quote_plus_chars]. rewrite IH by done.
  unfold quote_plus_char. by rewrite (Ascii.eqb_sym c), Hc.
Qed.

Lemma quote_then_replace s safe :
  replace_space_plus (quote s (safe ++ " ")) = quote_plus_chars safe s.
Proof.
  induction s as [|c s IH]; [done|].
  cbn [quote quote_plus_chars].
  rewrite replace_space_plus_app, IH. f_equal.
  unfold quote_plus_char. rewrite ascii_in_app, ascii_in_cons.
  change (ascii_in c "") with false. rewrite orb_false_r.
  destruct (Ascii.eqb c " ") eqn:Hc.
  - rewrite !orb_true_r. apply Ascii.eqb_eq in Hc as ->. reflexivity.
  - rewrite orb_false_r.
    destruct (_ || _).
    + cbn [replace_space_plus]. by rewrite Hc.
    + apply replace_space_plus_percent_hex.
Qed.

Lemma quote_plus_chars_eq s safe : quote_plus s safe = quote_plus_chars safe s.
Proof.
  unfold quote_plus. destruct (ascii_in " " s) eqn:Hs; simpl.
  - apply quote_then_replace.
  - by apply quote_no_space.
Qed.

Lemma append_assoc (s1 s2 s3 : string) : (s1 ++ s2) ++ s3 = s1 ++ s2 ++ s3.
Proof.
  induction s1 as [|c s1 IH]; [done|]. exact (f_equal (String c) IH).
Qed.

Lemma quote_plus_chars_app safe s1 s2 :
  quote_plus_chars safe (s1 ++ s2)
  = quote_plus_chars safe s1 ++ quote_plus_chars safe s2.
Proof.
  induction s1 as [|c s1 IH]; [done|].
  change (String c s1 ++ s2) with (String c (s1 ++ s2)).
  cbn [quote_plus_chars]. by rewrite IH, append_assoc.
Qed.

(** ** [_build_url] *)

Lemma conversion_specifiers_sorted ks (d : odict) :
  (forall k, k ∈ ks -> is_Some (KEY_WEB_HOOK_CONVERSION_SPECIFIERS !! k)) ->
  StronglySorted str_le (d.*1 ++ ks)%list ->
  NoDup d.*1 ->
  (forall k v, (k, v) ∈ d -> KEY_WEB_HOOK_CONVERSION_SPECIFIERS !! k = Some v) ->
  exists d' : odict,
    conversion_specifiers ks d = inr d'
    /\ StronglySorted str_le d'.*1
    /\ NoDup d'.*1
    /\ (forall k, k ∈ d'.*1 <-> k ∈ d.*1 \/ k ∈ ks)
    /\ (forall k v, (k, v) ∈ d' ->
                    KEY_WEB_HOOK_CONVERSION_SPECIFIERS !! k = Some v).
Proof.
  drop_unused.
  revert d. induction ks as [|k ks IH]; intros d Hks Hsorted Hnodup Hvals.
  - exists d. rewrite app_nil_r in Hsorted. repeat split; try done.
    + by left.
    + by intros [?|?%elem_of_nil].
  - destruct (Hks k) as [v Hv]; [by left|]. cbn [conversion_specifiers].
    rewrite Hv.
    destruct (IH (odict_set k v d)) as (d' & Heq & Hs & Hn & Hel & Hv');
      clear IH.
    + intros k' Hk'. apply Hks. by right.
    + destruct (decide (k ∈ d.*1)) as [Hin|Hnin].
      * rewrite odict_set_present by done.
        apply StronglySorted_app in Hsorted as (Hle & Hd & Hk).
        apply StronglySorted_app. split; [|split; [done|]].
        -- intros x1 x2 H1 H2. apply Hle; [done|by right].
        -- by apply StronglySorted_cons in Hk as [_ ?].
      * rewrite odict_set_absent, fmap_app, <- app_assoc by done. done.
    + destruct (decide (k ∈ d.*1)) as [Hin|Hnin].
      * by rewrite odict_set_present.
      * rewrite odict_set_absent, fmap_app by done.
        apply NoDup_app. split; [done|]. split; [|apply NoDup_singleton].
        intros x Hx ->%list_elem_of_singleton. done.
    + intros k' v' [?| [= -> ->]]%odict_set_elem_of; auto.
    + exists d'. split; [done|]. split; [done|]. split; [done|].
      split; [|done]. intros k'. rewrite Hel.
      destruct (decide (k ∈ d.*1)) as [Hin|Hnin].
      * rewrite odict_set_present by done. rewrite elem_of_cons.
        split; [tauto|]. intros [?|[->|?]]; auto.
      * rewrite odict_set_absent, fmap_app, elem_of_app by done.
        rewrite elem_of_cons. simpl. rewrite list_elem_of_singleton. tauto.
Qed.

(** The encoding that [urlencode] applies is the one of
    [query_string]. *)
Lemma quote_plus_char_written c : quote_plus_char "%{}" c = written c.
Proof.
  unfold quote_plus_char, written.
  destruct (Ascii.eqb c " "); [done|].
  assert (ascii_in c _ALWAYS_SAFE || ascii_in c "%{}" = written_as_is c)
    as ->; [|done].
  destruct c as [[] [] [] [] [] [] [] []]; vm_compute; reflexivity.
Qed.

Lemma quote_plus_written s : quote_plus s "%{}" = written_text s.
Proof.
  rewrite quote_plus_chars_eq.
  induction s as [|c s IH]; [done|].
  cbn [quote_plus_chars written_text].
  by rewrite quote_plus_char_written, IH.
Qed.

Lemma join_amp_concat l : join_amp l = String.concat "&" l.
Proof.
  induction l as [|x [|y l] IH]; [done..|].
  change (join_amp (x :: y :: l)) with (x ++ "&" ++ join_amp (y :: l)).
  by rewrite IH.
Qed.

Lemma urlencode_query_string (query : odict) :
  urlencode query "%{}" = query_string query.
Proof.
  unfold urlencode, query_string. rewrite join_amp_concat. f_equal.
  apply list_fmap_ext. intros _ [k v] _. simpl.
  by rewrite !quote_plus_written.
Qed.

Lemma written_text_plain s : plain s = true -> written_text s = s.
Proof.
  unfold plain. induction s as [|c s IH]; [done|].
  cbn [String.list_ascii_of_string forallb written_text].
  intros [Hc Hs]%andb_true_iff. rewrite IH by done.
  unfold written. rewrite Hc.
  destruct (Ascii.eqb_spec c " ") as [->|_]; [done|done].
Qed.

Lemma query_string_plain (query : odict) :
  Forall (fun kv => plain kv.1 = true /\ plain kv.2 = true) query ->
  query_string query = plain_query_string query.
Proof.
  unfold query_string, plain_query_string. intros Hall. f_equal.
  apply Forall_fmap_ext_1. eapply Forall_impl; [exact Hall|].
  intros [k v] [Hk Hv]. simpl in *.
  by rewrite !written_text_plain.
Qed.

(** C6: when every key has a conversion specifier, and the sentinel,
    event-type and device-id parameter names are distinct and are not
    themselves conversion-specifier keys, [_build_url] returns the
    base URL joined with "?" and the query string of these
    parameters: one per key, in sorted order, each with its
    conversion specifier, then the sentinel, the event type and the
    device-registry id.  The query string is written [name=value]
    with "&" in between, the names and values encoded as
    [query_string] tells; where they hold nothing but letters, digits
    and [_.-~%{}] they stand in the output as they are.  The encoding
    leaves every ["%"], ["{"] and ["}"] as it is. *)
Theorem build_url_query device base event_type keys :
  (forall k, k ∈ keys -> is_Some (KEY_WEB_HOOK_CONVERSION_SPECIFIERS !! k)) ->
  KEY_WEB_HOOK_CONVERSION_SPECIFIERS !! WEB_HOOK_SENTINEL_KEY = None ->
  KEY_WEB_HOOK_CONVERSION_SPECIFIERS !! ATTR_EVENT_TYPE = None ->
  KEY_WEB_HOOK_CONVERSION_SPECIFIERS !! ATTR_DEVICE_ID = None ->
  WEB_HOOK_SENTINEL_KEY <> ATTR_EVENT_TYPE ->
  WEB_HOOK_SENTINEL_KEY <> ATTR_DEVICE_ID ->
  (exists specifiers : odict,
     StronglySorted str_le specifiers.*1
     /\ NoDup specifiers.*1
     /\ (forall k, k ∈ specifiers.*1 <-> k ∈ keys)
     /\ (forall k v, (k, v) ∈ specifiers ->
                     KEY_WEB_HOOK_CONVERSION_SPECIFIERS !! k = Some v)
     /\ let params :=
          (specifiers ++
             [(WEB_HOOK_SENTINEL_KEY, WEB_HOOK_SENTINEL_VALUE);
              (ATTR_EVENT_TYPE, event_type);
              (ATTR_DEVICE_ID, dev_id device)])%list in
        _build_url device base event_type keys
        = inr (urljoin base ("?" ++ query_string params))
        /\ (Forall (fun kv => plain kv.1 = true /\ plain kv.2 = true)
               params ->
            _build_url device base event_type keys
            = inr (urljoin base ("?" ++ plain_query_string params))))
  /\ (forall c s1 s2,
        c ∈ ["%"; "{"; "}"]%char ->
        quote_plus (s1 ++ String c s2) "%{}"
        = quote_plus s1 "%{}" ++ String c (quote_plus s2 "%{}")).
Proof.
  drop_unused. intros Hkeys Hsk Het Hdi Hne1 Hne2. split.
  - destruct (conversion_specifiers_sorted (sorted keys) [])
      as (d & Heq & Hs & Hn & Hel & Hv).
    + intros k Hk. apply Hkeys. by apply sorted_elem_of.
    + apply sorted_strongly.
    + apply NoDup_nil_2.
    + by intros k v ?%elem_of_nil.
    + assert (forall k, KEY_WEB_HOOK_CONVERSION_SPECIFIERS !! k = None ->
                        k ∉ d.*1) as Hfresh.
      { intros k Hk [[k' v] [-> Hin]]%list_elem_of_fmap. simpl in Hk.
        apply Hv in Hin. congruence. }
      exists d. split; [done|]. split; [done|]. split.
      { intros k. rewrite Hel, sorted_elem_of. split; [|by right].
        by intros [?%elem_of_nil|?]. }
      split; [done|]. cbn zeta.
      assert (_build_url device base event_type keys
              = inr (urljoin base
                       ("?" ++ query_string
                                 (d ++
                                    [(WEB_HOOK_SENTINEL_KEY,
                                      WEB_HOOK_SENTINEL_VALUE);
                                     (ATTR_EVENT_TYPE, event_type);
                                     (ATTR_DEVICE_ID, dev_id device)])%list)))
        as Hurl.
      { unfold _build_url, query_params. rewrite Heq.
        rewrite (odict_set_absent WEB_HOOK_SENTINEL_KEY) by auto.
        rewrite (odict_set_absent ATTR_EVENT_TYPE); last first.
        { rewrite fmap_app, not_elem_of_app. split; [auto|].
          simpl. intros ?%list_elem_of_singleton. congruence. }
        rewrite (odict_set_absent ATTR_DEVICE_ID); last first.
        { rewrite !fmap_app, !not_elem_of_app. split; [split; [auto|]|].
          - simpl. intros ?%list_elem_of_singleton. congruence.
          - simpl. by intros [=]%list_elem_of_singleton. }
        by rewrite <- !app_assoc, urlencode_query_string. }
      split; [done|]. intros Hplain.
      by rewrite Hurl, query_string_plain.
  - intros c s1 s2 Hc. rewrite !quote_plus_chars_eq, quote_plus_chars_app.
    f_equal. cbn [quote_plus_chars].
    assert (quote_plus_char "%{}" c = String c "") as ->; [|done].
    apply list_elem_of_In in Hc. simpl in Hc.
    by destruct Hc as [<-|[<-|[<-|[]]]].
Qed.

(** ** The device registry *)

Lemma get_or_create_spec new_id eid ids man model name reg reg' dev :
  get_or_create new_id eid ids man model name reg = (reg', dev) ->
  dev ∈ reg'
  /\ ids ⊆ dev_identifiers dev
  /\ eid ∈ dev_config_entries dev
  /\ (forall d, d ∈ reg ->
        (d ∈ reg' \/ device_matches ids d = true)
        /\ exists d', d' ∈ reg'
                /\ dev_id d' = dev_id d
                /\ dev_identifiers d ⊆ dev_identifiers d'
                /\ dev_config_entries d ⊆ dev_config_entries d')
  /\ (dev_id <$> reg' = dev_id <$> reg
      \/ dev_id <$> reg' = (dev_id <$> reg) ++ [new_id])%list.
Proof.
  drop_unused.
  revert reg'. induction reg as [|d reg IH]; intros reg'; simpl.
  - intros [= <- <-]. simpl. split; [set_solver|].
    split; [done|]. split; [set_solver|]. split; [|by right].
    by intros d ?%elem_of_nil.
  - destruct (device_matches ids d) eqn:Hm.
    + intros [= <- <-]. simpl. split; [set_solver|].
      split; [set_solver|]. split; [set_solver|]. split; [|by left].
      intros x [->|Hx]%elem_of_cons.
      * split; [by right|].
        eexists. split; [by left|]. simpl. set_solver.
      * split; [left; by right|]. exists x. set_solver.
    + destruct (get_or_create _ _ _ _ _ _ reg) as [r x] eqn:Hrec.
      intros [= <- <-].
      destruct (IH r eq_refl) as (Hin & Hids & Heid & Hmono & Hdom).
      split; [by right|]. split; [done|]. split; [done|]. split.
      * intros y [->|Hy]%elem_of_cons.
        -- split; [left; by left|]. exists d. set_solver.
        -- destruct (Hmono y Hy) as [Hk (y' & ? & ? & ? & ?)].
           split; [destruct Hk; [left; by right|by right]|].
           exists y'. split; [by right|done].
      * rewrite !fmap_cons. destruct Hdom as [-> | ->]; [by left|by right].
Qed.

Lemma NoDup_fmap_inj_on {A B} (f : A -> B) (l : list A) x y :
  NoDup (f <$> l) -> x ∈ l -> y ∈ l -> f x = f y -> x = y.
Proof.
  drop_unused.
  induction l as [|a l IH]; simpl; [by intros _ ?%elem_of_nil|].
  intros [Hnotin Hnodup]%NoDup_cons [->|Hx]%elem_of_cons [->|Hy]%elem_of_cons Hf;
    [done| | |by apply IH].
  - destruct Hnotin. rewrite Hf. by apply list_elem_of_fmap_2.
  - destruct Hnotin. rewrite <- Hf. by apply list_elem_of_fmap_2.
Qed.

(** ** Camera reconciliation *)

Lemma untouched_refl h : untouched h h.
Proof. by repeat split. Qed.

Lemma untouched_trans h1 h2 h3 :
  untouched h1 h2 -> untouched h2 h3 -> untouched h1 h3.
Proof.
  unfold untouched.
  intros (?&?&?&?&?&?&?&?&?) (?&?&?&?&?&?&?&?&?).
  repeat split; congruence.
Qed.

Lemma hooks_written_refl camera : hooks_written camera camera.
Proof. by split. Qed.

Lemma hooks_written_trans c1 c2 c3 :
  hooks_written c1 c2 -> hooks_written c2 c3 -> hooks_written c1 c3.
Proof.
  intros [H1 H1'] [H2 H2']. split.
  - intros k Hk. by rewrite H2, H1.
  - intros k Hk. auto.
Qed.

Lemma hook_written_hooks url key_url key_method key_enabled camera :
  key_url ∈ hook_fields -> key_method ∈ hook_fields ->
  key_enabled ∈ hook_fields ->
  hooks_written camera
    (hook_written url key_url key_method key_enabled camera).
Proof.
  drop_unused. intros Hu Hm He. unfold hook_written. split.
  - intros k Hk. rewrite !lookup_insert_ne; [done|by intros ->..].
  - intros k Hk. rewrite !lookup_insert_is_Some'. tauto.
Qed.

Lemma set_webhook_hooks opts url key_url key_method key_enabled
    camera camera' b :
  key_url ∈ hook_fields -> key_method ∈ hook_fields ->
  key_enabled ∈ hook_fields ->
  _set_webhook opts url key_url key_method key_enabled camera
  = inr (camera', b) ->
  hooks_written camera camera'.
Proof.
  intros Hu Hm He H. destruct b.
  - apply set_webhook_true in H as (_ & _ & ->).
    by apply hook_written_hooks.
  - apply set_webhook_false in H as ->. apply hooks_written_refl.
Qed.

Lemma get_or_create_fields new_id eid ids man model name reg reg' dev :
  get_or_create new_id eid ids man model name reg = (reg', dev) ->
  dev_name dev = name /\ dev_manufacturer dev = man /\ dev_model dev = model.
Proof.
  revert reg'. induction reg as [|d reg IH]; intros reg'; simpl.
  - by intros [= <- <-].
  - destruct (device_matches ids d); [by intros [= <- <-]|].
    destruct (get_or_create _ _ _ _ _ _ reg) as [r x] eqn:Hrec.
    intros [= <- <-]. by apply (IH r).
Qed.

(** Every outcome of [_add_camera]. *)
Lemma add_camera_outcome camera_id camera ident h h' camera' r :
  _add_camera camera_id camera ident h = ((h', camera'), r) ->
  untouched h h'
  /\ coordinator_data h' = coordinator_data h
  /\ current_cameras h' = current_cameras h
  /\ hooks_written camera camera'
  /\ match camera !! KEY_NAME with
     | None => h' = h /\ camera' = camera /\ r = inl (KeyError KEY_NAME)
     | Some name =>
         devices h'
         = (get_or_create (fresh (device_ids (devices h)))
              (entry_id (entry h)) {[ident]} MOTIONEYE_MANUFACTURER
              MOTIONEYE_MANUFACTURER name (devices h)).1
     end
  /\ match r with
     | inl _ => dispatched h' = dispatched h /\ tasks h' = tasks h
     | inr _ =>
         dispatched h'
         = (dispatched h
              ++ [(SIGNAL_CAMERA_ADD (entry_id (entry h)), camera')])%list
         /\ (tasks h' = tasks h /\ camera' = camera
             \/ tasks h'
                = (tasks h ++ [async_set_camera camera_id camera'])%list)
     end.
Proof.
  drop_unused.
  assert (KEY_WEB_HOOK_NOTIFICATIONS_URL ∈ hook_fields
          /\ KEY_WEB_HOOK_NOTIFICATIONS_HTTP_METHOD ∈ hook_fields
          /\ KEY_WEB_HOOK_NOTIFICATIONS_ENABLED ∈ hook_fields
          /\ KEY_WEB_HOOK_STORAGE_URL ∈ hook_fields
          /\ KEY_WEB_HOOK_STORAGE_HTTP_METHOD ∈ hook_fields
          /\ KEY_WEB_HOOK_STORAGE_ENABLED ∈ hook_fields)
    as (Hf1 & Hf2 & Hf3 & Hf4 & Hf5 & Hf6).
  { unfold hook_fields. repeat split; set_solver. }
  unfold _add_camera, async_get_or_create,
    async_generate_motioneye_webhook, set_webhook_in_place. run.
  destruct (camera !! KEY_NAME) as [name|]; run.
  2:{ intros [= <- <- <-]. split; [apply untouched_refl|].
      by repeat split. }
  destruct (get_or_create _ _ _ _ _ _ _) as [reg dev] eqn:Hreg. run.
  intros H.
  repeat case_match; simplify_eq/=.
  all: try match goal with
           | H : _ || _ = false |- _ => apply orb_false_iff in H as [-> ->]
           end.
  all: repeat match goal with
           | H : _set_webhook _ _ _ _ _ _ = inr (_, _) |- _ =>
               let Hw := fresh "Hw" in
               pose proof H as Hw;
               apply set_webhook_hooks in Hw; [|done..];
               first [apply set_webhook_false in H; subst|clear H]
           end.
  all: split; [by repeat split|].
  all: split; [done|]; split; [done|].
  all: split; [first [apply hooks_written_refl
                     |done
                     |by eapply hooks_written_trans]|].
  all: split; [done|]; try done.
  all: split; [done|]; first [by right|by left|idtac].
Qed.

(** What a call of [_add_camera] that does not raise leaves behind:
    the registry after [async_get_or_create] and one more dispatcher
    signal. *)
Lemma add_camera_spec camera_id camera ident h h' camera' :
  _add_camera camera_id camera ident h = ((h', camera'), inr tt) ->
  exists name reg dev,
    get_or_create (fresh (device_ids (devices h))) (entry_id (entry h))
      {[ident]} MOTIONEYE_MANUFACTURER MOTIONEYE_MANUFACTURER name
      (devices h) = (reg, dev)
    /\ devices h' = reg
    /\ dispatched h'
       = (dispatched h
            ++ [(SIGNAL_CAMERA_ADD (entry_id (entry h)), camera')])%list
    /\ entry h' = entry h
    /\ current_cameras h' = current_cameras h.
Proof.
  intros H.
  apply add_camera_outcome in H as ((He & _) & _ & Hcur & _ & Hdev & Hd & _).
  destruct (camera !! KEY_NAME) as [name|]; [|by destruct Hdev as (_ & _ & ?)].
  destruct (get_or_create _ _ _ _ _ _ _) as [reg dev] eqn:Hreg.
  by exists name, reg, dev.
Qed.

Lemma device_matches_true ids d :
  device_matches ids d = true <->
  exists i, i ∈ dev_identifiers d /\ i ∈ ids.
Proof.
  unfold device_matches. rewrite bool_decide_eq_true. unfold set_Exists.
  done.
Qed.

Lemma is_acceptable_camera_true camera :
  is_acceptable_camera camera = true <->
  exists c camera_id name,
    camera = Some c /\ c !! KEY_ID = Some camera_id
    /\ c !! KEY_NAME = Some name.
Proof.
  drop_unused. unfold is_acceptable_camera.
  destruct camera as [c|]; [|split; [done|by intros (? & ? & ? & ? & _)]].
  rewrite !andb_true_iff, !bool_decide_eq_true. split.
  - intros [[_ [i Hi]] [n Hn]]. by exists c, i, n.
  - intros (? & i & n & [= <-] & Hi & Hn). split; [split|]; [|by eauto..].
    simpl. apply negb_true_iff, bool_decide_eq_false. intros ->.
    by rewrite lookup_empty in Hi.
Qed.

(** One round of the first loop, at an acceptable camera. *)
Lemma add_new_cameras_step c camera_id n rest inbound h :
  is_acceptable_camera (Some c) = true ->
  c !! KEY_ID = Some camera_id ->
  add_new_cameras n (Some c :: rest) inbound h =
  let i := get_motioneye_device_identifier (entry_id (entry h)) camera_id in
  if bool_decide (i ∈ current_cameras h) then
    add_new_cameras (S n) rest (inbound ∪ {[i]}) h
  else
    match _add_camera camera_id c i
            (set_current_cameras (current_cameras h ∪ {[i]}) h) with
    | ((h2, c'), inl e) => (store_camera n c' h2, inl e)
    | ((h2, c'), inr _) =>
        add_new_cameras (S n) rest (inbound ∪ {[i]}) (store_camera n c' h2)
    end.
Proof.
  intros Hacc Hid. cbn [add_new_cameras]. rewrite Hacc.
  unfold bind, lift, gets, modify, in_place. cbn [negb py_getitem].
  rewrite Hid. cbv beta iota.
  set (i := get_motioneye_device_identifier _ _).
  destruct (bool_decide (i ∈ current_cameras h)); [done|]. cbv beta.
  by destruct (_add_camera _ _ _ _) as [[h2 c'] [e|[]]].
Qed.

Lemma camera_identifiers_cons e c camera_id rest :
  is_acceptable_camera (Some c) = true ->
  c !! KEY_ID = Some camera_id ->
  camera_identifiers e (acceptable_prefix (Some c :: rest))
  = {[get_motioneye_device_identifier (entry_id e) camera_id]}
    ∪ camera_identifiers e (acceptable_prefix rest).
Proof.
  intros Hacc Hid. unfold camera_identifiers. cbn [acceptable_prefix].
  rewrite Hacc, fmap_cons, list_to_set_cons.
  unfold camera_identifier at 1, dict_get. simpl. by rewrite Hid.
Qed.

(** What the first loop leaves behind when it does not raise: [ids]
    are the identifiers of the cameras before the first that is not
    acceptable. *)
Lemma add_new_cameras_spec cameras : forall n inbound h h' r,
  add_new_cameras n cameras inbound h = (h', inr r) ->
  let ids := camera_identifiers (entry h) (acceptable_prefix cameras) in
  entry h' = entry h
  /\ current_cameras h' = current_cameras h ∪ ids
  /\ (exists new,
        dispatched h' = (dispatched h ++ new)%list
        /\ Forall (fun x : string * pydict => x.1 = SIGNAL_CAMERA_ADD (entry_id (entry h))) new
        /\ length new = size (ids ∖ current_cameras h))
  /\ (forall d, d ∈ devices h ->
        (d ∈ devices h' \/ device_matches ids d = true)
        /\ exists d', d' ∈ devices h'
                /\ dev_id d' = dev_id d
                /\ dev_identifiers d ⊆ dev_identifiers d'
                /\ dev_config_entries d ⊆ dev_config_entries d')
  /\ (forall i, i ∈ ids -> i ∉ current_cameras h ->
        exists d, d ∈ devices h' /\ i ∈ dev_identifiers d
                  /\ entry_id (entry h) ∈ dev_config_entries d)
  /\ (NoDup (dev_id <$> devices h) -> NoDup (dev_id <$> devices h'))
  /\ r = (if forallb is_acceptable_camera cameras
          then Some (inbound ∪ ids) else None)
  /\ (ids ⊆ current_cameras h -> h' = h).
Proof.
  assert (forall (inbound : gset (string * string)) (h h' : hass) r
                 (b : bool),
            ((h, inr (if b then Some inbound else None))
             : hass * result (option (gset (string * string))))
            = (h', inr r) ->
            let ids : gset (string * string) := ∅ in
            entry h' = entry h
            /\ current_cameras h' = current_cameras h ∪ ids
            /\ (exists new,
                  dispatched h' = (dispatched h ++ new)%list
                  /\ Forall (fun x : string * pydict => x.1 = SIGNAL_CAMERA_ADD
                                             (entry_id (entry h))) new
                  /\ length new = size (ids ∖ current_cameras h))
            /\ (forall d, d ∈ devices h ->
                  (d ∈ devices h' \/ device_matches ids d = true)
                  /\ exists d', d' ∈ devices h'
                          /\ dev_id d' = dev_id d
                          /\ dev_identifiers d ⊆ dev_identifiers d'
                          /\ dev_config_entries d ⊆ dev_config_entries d')
            /\ (forall i, i ∈ ids -> i ∉ current_cameras h ->
                  exists d, d ∈ devices h' /\ i ∈ dev_identifiers d
                            /\ entry_id (entry h) ∈ dev_config_entries d)
            /\ (NoDup (dev_id <$> devices h) -> NoDup (dev_id <$> devices h'))
            /\ r = (if b then Some (inbound ∪ ids) else None)
            /\ (ids ⊆ current_cameras h -> h' = h)) as Hstop.
  { clear. intros inbound h h' r b [= <- <-]. cbn zeta.
    split; [done|]. split; [set_solver|]. split.
    { exists []. rewrite app_nil_r. split; [done|]. split; [done|].
      replace (∅ ∖ current_cameras h) with (∅ : gset (string * string))
        by set_solver.
      by rewrite size_empty. }
    split; [intros d Hd; split; [by left|exists d; set_solver]|].
    split; [set_solver|]. split; [done|]. split; [|done].
    destruct b; [|done]. f_equal. set_solver. }
  induction cameras as [|camera rest IH]; intros n inbound h h' r.
  { intros H. by apply (Hstop inbound h h' r true). }
  destruct (is_acceptable_camera camera) eqn:Hacc.
  2:{ cbn [add_new_cameras acceptable_prefix forallb]. rewrite Hacc.
      intros H. by apply (Hstop inbound h h' r false). }
  clear Hstop.
  pose proof Hacc as (c & camera_id & name & -> & Hid & Hname)
    %is_acceptable_camera_true.
  rewrite (add_new_cameras_step c camera_id) by done. cbn zeta.
  rewrite (camera_identifiers_cons _ c camera_id) by done.
  cbn [forallb]. rewrite Hacc. cbn [andb].
  set (i := get_motioneye_device_identifier (entry_id (entry h)) camera_id).
  set (ids := camera_identifiers (entry h) (acceptable_prefix rest)).
  destruct (bool_decide (i ∈ current_cameras h)) eqn:Hin.
  - apply bool_decide_eq_true in Hin. intros H.
    apply IH in H as (He & Hcur & (new & Hnew & Hsig & Hlen) & Hmono
                      & Hdev & Hnodup & Hr & Hsame).
    fold ids in Hcur, Hlen, Hmono, Hdev, Hr, Hsame. clearbody i ids.
    split; [done|]. split; [rewrite Hcur; clear -Hin; set_solver|]. split.
    { exists new. split; [done|]. split; [done|]. rewrite Hlen.
      f_equal. clear -Hin. set_solver. }
    split.
    { intros d Hd. destruct (Hmono d Hd) as [[?|Hm] ?]; (split; [|done]).
      - by left.
      - right. apply device_matches_true.
        apply device_matches_true in Hm as (j & ? & ?). exists j.
        split; [done|]. apply elem_of_union. by right. }
    split.
    { intros j Hj Hnj. apply Hdev; [|done].
      apply elem_of_union in Hj as [Hj%elem_of_singleton|Hj]; [|done].
      by subst. }
    split; [done|]. split.
    { rewrite Hr. destruct (forallb _ _); [|done].
      by rewrite (assoc_L (∪)). }
    intros Hsub. apply Hsame. clear -Hsub. set_solver.
  - apply bool_decide_eq_false in Hin.
    destruct (_add_camera _ _ _ _) as [[h2 c'] [e|[]]] eqn:Hadd; [done|].
    apply add_camera_spec in Hadd
      as (nm & reg & dev & Hreg & Hdevs & Hdisp & He2 & Hcur2).
    simpl in Hreg, Hdisp, He2, Hcur2.
    apply get_or_create_spec in Hreg
      as (Hdevin & Hdevids & Hdeveid & Hmono1 & Hids1).
    intros H.
    apply IH in H as (He & Hcur & (new & Hnew & Hsig & Hlen) & Hmono
                      & Hdev & Hnodup & Hr & Hsame).
    cbn [store_camera set_coordinator_data entry current_cameras
           dispatched devices] in He, Hcur, Hnew, Hsig, Hlen, Hmono, Hdev,
      Hnodup, Hr.
    rewrite He2 in He, Hsig, Hdev, Hcur, Hlen, Hmono, Hr.
    fold ids in Hcur, Hlen, Hmono, Hdev, Hr.
    rewrite Hcur2 in Hcur, Hlen, Hdev. rewrite Hdevs in Hmono, Hnodup.
    clearbody i ids.
    split; [done|]. split; [rewrite Hcur; clear; set_solver|]. split.
    { exists ((SIGNAL_CAMERA_ADD (entry_id (entry h)), c') :: new).
      split; [by rewrite Hnew, Hdisp, <- app_assoc|].
      split; [by constructor|]. simpl. rewrite Hlen.
      replace (({[i]} ∪ ids) ∖ current_cameras h)
        with ({[i]} ∪ ids ∖ (current_cameras h ∪ {[i]}))
        by (clear -Hin; apply set_eq; intros x;
            destruct (decide (x = i)); set_solver).
      assert (({[i]} : gset (string * string))
                ## ids ∖ (current_cameras h ∪ {[i]})) as Hdisj
        by (clear; set_solver).
      by rewrite (size_union _ _ Hdisj), size_singleton. }
    split.
    { intros d Hd. destruct (Hmono1 d Hd) as [Hk (d1 & Hd1 & ? & ? & ?)].
      destruct (Hmono d1 Hd1) as [_ (d2 & ? & ? & ? & ?)].
      split.
      2:{ exists d2. split; [done|]. split; [congruence|].
          split; etrans; done. }
      destruct Hk as [Hk|Hm].
      - destruct (Hmono d Hk) as [[?|Hm] _]; [by left|].
        right. apply device_matches_true.
        apply device_matches_true in Hm as (j & ? & ?). exists j.
        split; [done|]. apply elem_of_union. by right.
      - right. apply device_matches_true.
        apply device_matches_true in Hm as (j & ? & ?). exists j.
        split; [done|]. apply elem_of_union. by left. }
    split.
    { intros j Hj Hnj. destruct (decide (j = i)) as [->|Hne].
      - destruct (Hmono dev Hdevin) as [_ (d2 & ? & ? & Hsub1 & Hsub2)].
        exists d2. split; [done|]. split.
        + apply Hsub1, Hdevids. by apply elem_of_singleton.
        + by apply Hsub2.
      - apply Hdev.
        + apply elem_of_union in Hj as [Hj%elem_of_singleton|Hj]; done.
        + intros [?|?%elem_of_singleton]%elem_of_union; done. }
    split.
    { intros Hnd. apply Hnodup. destruct Hids1 as [-> | ->]; [done|].
      apply NoDup_app. split; [done|]. split; [|apply NoDup_singleton].
      intros x Hx ->%list_elem_of_singleton.
      apply (is_fresh (device_ids (devices h))).
      unfold device_ids. by apply elem_of_list_to_set. }
    split.
    { rewrite Hr. destruct (forallb _ _); [|done].
      by rewrite (assoc_L (∪)). }
    intros Hsub. destruct Hin. apply Hsub, elem_of_union. left.
    by apply elem_of_singleton.
Qed.

Lemma acceptable_prefix_all cameras :
  Forall (fun c => is_acceptable_camera c = true) cameras ->
  acceptable_prefix cameras = cameras
  /\ forallb is_acceptable_camera cameras = true.
Proof.
  induction 1 as [|c l Hc _ [IH1 IH2]]; [done|].
  cbn [acceptable_prefix forallb]. by rewrite Hc, IH1, IH2.
Qed.

(** A camera that is not acceptable ends the first loop: what comes
    after it plays no part. *)
Lemma add_new_cameras_prefix pre bad post : forall n inbound h,
  Forall (fun c => is_acceptable_camera c = true) pre ->
  is_acceptable_camera bad = false ->
  add_new_cameras n (pre ++ bad :: post) inbound h =
  match add_new_cameras n pre inbound h with
  | (h1, inl e) => (h1, inl e)
  | (h1, inr _) => (h1, inr None)
  end.
Proof.
  induction pre as [|camera pre IH]; intros n inbound h Hpre Hbad.
  - cbn [app add_new_cameras]. by rewrite Hbad.
  - apply Forall_cons in Hpre as [Hacc Hpre].
    pose proof Hacc as (c & camera_id & name & -> & Hid & Hname)
      %is_acceptable_camera_true.
    rewrite <- app_comm_cons.
    rewrite !(add_new_cameras_step c camera_id) by done. cbn zeta.
    destruct (bool_decide _); [by apply IH|].
    destruct (_add_camera _ _ _ _) as [[h2 c'] [e|[]]]; [done|by apply IH].
Qed.

(** What the second loop leaves behind: the devices whose id is not
    that of a listed device without an inbound identifier. *)
Lemma remove_stale_devices_spec entries inbound : forall h,
  exists reg,
    remove_stale_devices entries inbound h = (set_devices reg h, inr tt)
    /\ forall d, d ∈ reg <->
                 d ∈ devices h
                 /\ forall e, e ∈ entries ->
                              device_matches inbound e = false ->
                              dev_id d <> dev_id e.
Proof.
  drop_unused.
  induction entries as [|e entries IH]; intros h.
  - exists (devices h). split; [by destruct h|].
    intros d. split; [|by intros [? _]].
    intros Hd. split; [done|]. by intros e ?%elem_of_nil.
  - cbn [remove_stale_devices]. unfold async_remove_device. run.
    destruct (device_matches inbound e) eqn:Hm; run.
    + destruct (IH h) as (reg & -> & Hreg). exists reg. split; [done|].
      intros d. rewrite Hreg. split; intros [Hd Hall]; (split; [done|]).
      * intros e' [->|He']%elem_of_cons Hs; [congruence|by apply Hall].
      * intros e' He'. apply Hall. by right.
    + destruct (IH (set_devices
                      (filter (fun d => dev_id d <> dev_id e) (devices h)) h))
        as (reg & -> & Hreg).
      exists reg. split; [by destruct h|].
      intros d. rewrite Hreg. simpl. rewrite list_elem_of_filter.
      split.
      * intros [[Hne Hd] Hall]. split; [done|].
        intros e' [->|He']%elem_of_cons Hs; [done|by apply Hall].
      * intros [Hd Hall]. split; [split; [|done]|].
        -- apply Hall; [by left|done].
        -- intros e' He'. apply Hall. by right.
Qed.

(** The listener, on a poll that has a camera list. *)
Lemma process_cameras_eq h d cameras :
  coordinator_data h = Some d ->
  d !! KEY_CAMERAS = Some cameras ->
  _async_process_motioneye_cameras h =
  match add_new_cameras 0 cameras ∅ h with
  | (h1, inl e) => (h1, inl e)
  | (h1, inr None) => (h1, inr tt)
  | (h1, inr (Some inbound_camera)) =>
      remove_stale_devices
        (async_entries_for_config_entry (devices h1) (entry_id (entry h1)))
        inbound_camera h1
  end.
Proof.
  intros Hd Hc. unfold _async_process_motioneye_cameras. run.
  rewrite Hd, Hc. run.
  by destruct (add_new_cameras _ _ _ _) as [h1 [e|[inb|]]].
Qed.

(** C3, as amended: on a poll that has a camera list and that the
    listener handles without raising, the cameras before the first
    one that is not acceptable are visited in order.  Each of their
    device identifiers that is not in [current_cameras] is added
    exactly once (there is a device with this identifier in the
    registry, registered to the entry, and the number of camera-add
    signals sent is the number of such identifiers) and is recorded
    in [current_cameras]; when all of them are in [current_cameras]
    already, no signal is sent, no task is created and no device is
    created or changed.  The ids of the registry are taken to be
    unique. *)
Theorem process_cameras_adds_new h h' d cameras :
  coordinator_data h = Some d ->
  d !! KEY_CAMERAS = Some cameras ->
  NoDup (dev_id <$> devices h) ->
  _async_process_motioneye_cameras h = (h', inr tt) ->
  let ids := camera_identifiers (entry h) (acceptable_prefix cameras) in
  current_cameras h' = current_cameras h ∪ ids
  /\ (exists new,
        dispatched h' = (dispatched h ++ new)%list
        /\ Forall (fun x : string * pydict =>
                     x.1 = SIGNAL_CAMERA_ADD (entry_id (entry h))) new
        /\ length new = size (ids ∖ current_cameras h))
  /\ (forall i, i ∈ ids -> i ∉ current_cameras h ->
        exists dev, dev ∈ devices h' /\ i ∈ dev_identifiers dev
                    /\ entry_id (entry h) ∈ dev_config_entries dev)
  /\ (ids ⊆ current_cameras h ->
      dispatched h' = dispatched h /\ tasks h' = tasks h
      /\ forall dev, dev ∈ devices h' -> dev ∈ devices h).
Proof.
  intros Hd Hc Hnd. rewrite (process_cameras_eq h d cameras) by done.
  destruct (add_new_cameras 0 cameras ∅ h) as [h1 [e|r]] eqn:Hloop; [done|].
  apply add_new_cameras_spec in Hloop
    as (He & Hcur & Hnew & Hmono & Hdev & Hnodup & Hr & Hsame).
  cbn zeta. revert Hcur Hnew Hmono Hdev Hr Hsame.
  generalize (camera_identifiers (entry h) (acceptable_prefix cameras)).
  intros ids Hcur Hnew Hmono Hdev Hr Hsame.
  destruct (forallb is_acceptable_camera cameras); subst r.
  - destruct (remove_stale_devices_spec
                (async_entries_for_config_entry (devices h1)
                   (entry_id (entry h1))) (∅ ∪ ids) h1)
      as (reg & -> & Hreg).
    intros [= <-]. simpl. split; [done|]. split; [done|]. split.
    + intros i Hi Hni. destruct (Hdev i Hi Hni) as (dev & Hin & Hid & Hcfg).
      exists dev. split; [|done]. apply Hreg. split; [done|].
      intros e [_ He']%list_elem_of_filter Hstale Heq.
      assert (dev = e) as <-
        by (by apply (NoDup_fmap_inj_on dev_id (devices h1)); auto).
      assert (device_matches (∅ ∪ ids) dev = true) as Hm; [|congruence].
      apply device_matches_true. exists i. split; [done|].
      apply elem_of_union. by right.
    + intros Hsub. rewrite (Hsame Hsub). split; [done|]. split; [done|].
      intros dev Hin. apply Hreg in Hin as [Hin _]. by rewrite <- (Hsame Hsub).
  - intros [= <-]. split; [done|]. split; [done|]. split; [done|].
    intros Hsub. by rewrite (Hsame Hsub).
Qed.

(** C4, as amended: on a poll that has a camera list in which every
    camera is acceptable, and that the listener handles without
    raising, every device that is left in the registry and is
    registered to the config entry has an identifier derived from a
    camera of the list; a device that was registered to the entry
    with no such identifier is gone from the registry. *)
Theorem process_cameras_removes_stale h h' d cameras :
  coordinator_data h = Some d ->
  d !! KEY_CAMERAS = Some cameras ->
  Forall (fun c => is_acceptable_camera c = true) cameras ->
  _async_process_motioneye_cameras h = (h', inr tt) ->
  let inbound := camera_identifiers (entry h) cameras in
  (forall dev, dev ∈ devices h' ->
     entry_id (entry h) ∈ dev_config_entries dev ->
     exists i, i ∈ dev_identifiers dev /\ i ∈ inbound)
  /\ (forall dev, dev ∈ devices h ->
        entry_id (entry h) ∈ dev_config_entries dev ->
        (forall i, i ∈ dev_identifiers dev -> i ∉ inbound) ->
        dev_id dev ∉ device_ids (devices h')).
Proof.
  intros Hd Hc [Hpre Hall]%acceptable_prefix_all.
  rewrite (process_cameras_eq h d cameras) by done.
  destruct (add_new_cameras 0 cameras ∅ h) as [h1 [e|r]] eqn:Hloop; [done|].
  apply add_new_cameras_spec in Hloop
    as (He & _ & _ & Hmono & _ & _ & Hr & _).
  rewrite Hpre, Hall in *. subst r. cbn zeta.
  revert Hmono. generalize (camera_identifiers (entry h) cameras).
  intros inbound Hmono.
  destruct (remove_stale_devices_spec
              (async_entries_for_config_entry (devices h1)
                 (entry_id (entry h1))) (∅ ∪ inbound) h1)
    as (reg & -> & Hreg).
  intros [= <-]. simpl. rewrite He in Hreg. split.
  - intros dev [Hin Hkeep]%Hreg Hcfg.
    destruct (device_matches (∅ ∪ inbound) dev) eqn:Hm.
    + apply device_matches_true in Hm as (i & ? & Hi). exists i.
      split; [done|].
      by apply elem_of_union in Hi as [?%elem_of_empty|?].
    + destruct (Hkeep dev); try done. by apply list_elem_of_filter.
  - intros dev Hin Hcfg Hstale. unfold device_ids.
    rewrite elem_of_list_to_set.
    intros (dev' & Heq & [Hin' Hkeep]%Hreg)%list_elem_of_fmap.
    assert (device_matches (∅ ∪ inbound) dev = false) as Hm.
    { apply not_true_iff_false. intros (i & ? & Hi)%device_matches_true.
      apply elem_of_union in Hi as [?%elem_of_empty|?]; [done|].
      by apply (Hstale i). }
    destruct (Hmono dev Hin) as [[Hin1|Hm1] _].
    + apply (Hkeep dev); [by apply list_elem_of_filter|done|done].
    + apply device_matches_true in Hm1 as (i & ? & ?). by apply (Hstale i).
Qed.

(** The listener on a poll without data or without a camera list. *)
Lemma process_cameras_no_list h :
  coordinator_data h = None
  \/ (exists d, coordinator_data h = Some d /\ d !! KEY_CAMERAS = None) ->
  _async_process_motioneye_cameras h = (h, inr tt).
Proof.
  unfold _async_process_motioneye_cameras. run.
  intros [-> | (d & -> & ->)]; done.
Qed.

(** C9: when the coordinator has no data, or its data has no camera
    list, the listener does nothing.  When a camera of the list is
    not acceptable, the listener does what the first loop does on the
    cameras before it and returns: the cameras after it are not
    visited and the removal loop is not run, so that the recorded
    identifiers and the signals sent are those of the cameras before
    it and every device of the registry is still there. *)
Theorem process_cameras_stops_early h :
  ((coordinator_data h = None
    \/ exists d, coordinator_data h = Some d /\ d !! KEY_CAMERAS = None) ->
   _async_process_motioneye_cameras h = (h, inr tt))
  /\ (forall d pre bad post,
        coordinator_data h = Some d ->
        d !! KEY_CAMERAS = Some (pre ++ bad :: post)%list ->
        Forall (fun c => is_acceptable_camera c = true) pre ->
        is_acceptable_camera bad = false ->
        _async_process_motioneye_cameras h
        = match add_new_cameras 0 pre ∅ h with
          | (h1, inl e) => (h1, inl e)
          | (h1, inr _) => (h1, inr tt)
          end
        /\ forall h',
             _async_process_motioneye_cameras h = (h', inr tt) ->
             let ids := camera_identifiers (entry h) pre in
             current_cameras h' = current_cameras h ∪ ids
             /\ length (dispatched h')
                = length (dispatched h) + size (ids ∖ current_cameras h)
             /\ forall dev, dev ∈ devices h ->
                            dev_id dev ∈ device_ids (devices h')).
Proof.
  split.
  - unfold _async_process_motioneye_cameras. run.
    intros [-> | (d & -> & ->)]; done.
  - intros d pre bad post Hd Hc Hpre Hbad.
    rewrite (process_cameras_eq h d _) by done.
    rewrite add_new_cameras_prefix by done.
    destruct (add_new_cameras 0 pre ∅ h) as [h1 [e|r]] eqn:Hloop;
      (split; [done|]); [done|].
    intros h' [= <-].
    apply add_new_cameras_spec in Hloop
      as (He & Hcur & (new & Hnew & _ & Hlen) & Hmono & _).
    apply acceptable_prefix_all in Hpre as [Hpre _].
    rewrite Hpre in *. cbn zeta. split; [done|]. split.
    + by rewrite Hnew, length_app, Hlen.
    + intros dev Hin. destruct (Hmono dev Hin) as [_ (d' & ? & <- & _)].
      unfold device_ids. rewrite elem_of_list_to_set.
      by apply list_elem_of_fmap_2.
Qed.

(** ** [handle_webhook] *)

(** What [handle_webhook] does with a body that decodes to a JSON
    object. *)
Lemma handle_webhook_dict webhook_id (d : pydict) h :
  handle_webhook webhook_id (json (PDict d)) h =
  match d !! ATTR_DEVICE_ID, d !! ATTR_EVENT_TYPE with
  | None, _ =>
      (h, inr (bad_request ("Missing webhook parameter: " ++ ATTR_DEVICE_ID)))
  | Some _, None =>
      (h, inr (bad_request ("Missing webhook parameter: " ++ ATTR_EVENT_TYPE)))
  | Some device_id, Some event_type =>
      match async_get (devices h) device_id with
      | inl e => (h, inl e)
      | inr None =>
          (h, inr (bad_request
                     ("Device not found: " ++ py_str repr_container device_id)))
      | inr (Some device) =>
          let name := DOMAIN ++ "." ++ py_str repr_container event_type in
          if (MAX_LENGTH_EVENT_EVENT_TYPE <? py_len name)%nat
          then (h, inl MaxLengthExceeded)
          else (set_bus
                  (bus h ++ [(name, event_data device webhook_id d)]) h,
                inr None)
      end
  end.
Proof.
  unfold handle_webhook, first_missing, py_in, py_getitem, async_fire,
    bind, lift, gets, ret, modify, raise.
  destruct (d !! ATTR_DEVICE_ID) as [i|] eqn:Hi; simpl; [|done].
  destruct (d !! ATTR_EVENT_TYPE) as [t|] eqn:Ht; simpl; [|done].
  destruct (async_get (devices h) i) as [e|[device|]]; [done| |done].
  cbv zeta. by destruct (_ <? _)%nat.
Qed.

(** An event is fired for JSON objects only. *)
Lemma handle_webhook_fires_on_dict webhook_id v h h' :
  handle_webhook webhook_id (json v) h = (h', inr None) ->
  exists d, v = PDict d.
Proof.
  destruct v as [| | | | s |l|d]; try done; [| |by eauto].
  - unfold handle_webhook, first_missing, bind, lift, ret. simpl.
    destruct (str_contains _ _); [|done].
    by destruct (str_contains _ _).
  - unfold handle_webhook, first_missing, bind, lift, ret. simpl.
    destruct (existsb _ _); [|done].
    by destruct (existsb _ _).
Qed.

Lemma async_get_dev_id reg device_id device :
  async_get reg device_id = inr (Some device) ->
  device_id = PStr (dev_id device).
Proof.
  destruct device_id as [| | | |i| |]; simpl; try done.
  intros [= [_ ->%String.eqb_eq]%find_some]. done.
Qed.

(** The registry lookup raises for a list and a dict, and for nothing
    else. *)
Lemma async_get_raises reg device_id e :
  async_get reg device_id = inl e <->
  e = TypeError
  /\ ((exists l, device_id = PList l) \/ exists m, device_id = PDict m).
Proof.
  destruct device_id as [| | | |i|l|m]; simpl;
    try (split; [done|by intros (_ & [[? ?]|[? ?]])]).
  - split; [intros [= <-]; by eauto|by intros [-> _]].
  - split; [intros [= <-]; by eauto|by intros [-> _]].
Qed.

Lemma event_data_lookup device webhook_id (d : pydict) k :
  event_data device webhook_id d !! k =
  match d !! k with
  | Some v => Some v
  | None =>
      if decide (k = ATTR_WEBHOOK_ID) then Some (PStr webhook_id)
      else if decide (k = ATTR_NAME) then Some (dev_name device)
      else if decide (k = ATTR_DEVICE_ID) then Some (PStr (dev_id device))
      else None
  end.
Proof.
  unfold event_data. rewrite lookup_union.
  destruct (d !! k) as [v|]; simpl.
  - by destruct (_ !! k).
  - rewrite left_id by apply _.
    repeat (rewrite lookup_insert; case_decide; [by subst|]).
    rewrite lookup_empty.
    repeat (case_decide; [congruence|]). done.
Qed.

(** C5, as amended: for a body that is not JSON or that decodes to a
    JSON object, [handle_webhook] returns a 400 response, and leaves
    the hub as it is, exactly when the body is not JSON, or the
    object lacks the device_id or the event_type key, or the registry
    is asked for the device id and does not have it.  In every other
    case the object has both keys and one of three things happens.
    The device id is a list or an object: the registry lookup raises
    [TypeError].  The device is known and "motioneye." followed by the
    text of the event type is longer than 64 characters: the event
    bus raises [MaxLengthExceeded].  The device is known and the name
    is not longer than that: [None] is returned after exactly one
    event of that name is fired; the event holds every item of the
    payload (the device id among them), and the device name and the
    webhook id under "name" and "webhook_id" where the payload has no
    item of its own under that key.  Nothing is fired by a call that
    raises. *)
Theorem handle_webhook_bad_request_iff webhook_id request h :
  (request = undecodable \/ exists d, request = json (PDict d)) ->
  ((exists h' r,
      handle_webhook webhook_id request h = (h', inr (Some r))
      /\ status r = BAD_REQUEST) <-> rejected request h)
  /\ (forall h' r,
        handle_webhook webhook_id request h = (h', inr r) ->
        is_Some r -> h' = h)
  /\ (~ rejected request h ->
      exists (d : pydict) device_id event_type,
        request = json (PDict d)
        /\ d !! ATTR_EVENT_TYPE = Some event_type
        /\ d !! ATTR_DEVICE_ID = Some device_id
        /\ (((exists l, device_id = PList l)
             \/ (exists m, device_id = PDict m))
            /\ handle_webhook webhook_id request h = (h, inl TypeError)
            \/ exists device,
                 device_id = PStr (dev_id device)
                 /\ async_get (devices h) device_id = inr (Some device)
                 /\ let name :=
                      DOMAIN ++ "." ++ py_str repr_container event_type in
                    ((MAX_LENGTH_EVENT_EVENT_TYPE < py_len name)%nat
                     /\ handle_webhook webhook_id request h
                        = (h, inl MaxLengthExceeded))
                    \/ ((py_len name <= MAX_LENGTH_EVENT_EVENT_TYPE)%nat
                        /\ handle_webhook webhook_id request h
                           = (set_bus
                                (bus h ++
                                   [(name, event_data device webhook_id d)])
                                h,
                              inr None)
                        /\ (forall k v, d !! k = Some v ->
                               event_data device webhook_id d !! k = Some v)
                        /\ (d !! ATTR_NAME = None ->
                            event_data device webhook_id d !! ATTR_NAME
                            = Some (dev_name device))
                        /\ (d !! ATTR_WEBHOOK_ID = None ->
                            event_data device webhook_id d !! ATTR_WEBHOOK_ID
                            = Some (PStr webhook_id))))).
Proof.
  drop_unused. unfold rejected. intros [->|[d ->]].
  - split; [|split].
    + split; [by left|]. intros _. by eexists _, _.
    + by intros h' r [= <- <-].
    + intros []. by left.
  - rewrite handle_webhook_dict.
    destruct (d !! ATTR_DEVICE_ID) as [i|] eqn:Hi.
    2:{ split; [|split].
        - split; [|by eexists _, _]. intros _. right. exists d. auto.
        - by intros h' r [= <- <-].
        - intros []. right. exists d. auto. }
    destruct (d !! ATTR_EVENT_TYPE) as [t|] eqn:Ht.
    2:{ split; [|split].
        - split; [|by eexists _, _]. intros _. right. exists d. auto.
        - by intros h' r [= <- <-].
        - intros []. right. exists d. auto. }
    destruct (async_get (devices h) i) as [e|[device|]] eqn:Hdev.
    + apply async_get_raises in Hdev as [-> Hi'].
      split; [|split].
      * split; [by intros (? & ? & [=] & _)|].
        intros [[=]|(d' & [= <-] & [?|[?|(i' & Heq & Hnone)]])];
          [congruence..|].
        rewrite Hi in Heq. injection Heq as <-.
        destruct Hi' as [[? ->]|[? ->]]; done.
      * by intros h' r [=].
      * intros _. exists d, i, t. repeat split; try done. by left.
    + pose proof (async_get_dev_id _ _ _ Hdev) as ->. cbv zeta.
      destruct (Nat.ltb_spec MAX_LENGTH_EVENT_EVENT_TYPE
                  (py_len (DOMAIN ++ "." ++ py_str repr_container t)))
        as [Hlong|Hshort].
      * split; [|split].
        -- split; [by intros (? & ? & [=] & _)|].
           intros [[=]|(d' & [= <-] & [?|[?|(i & ? & ?)]])]; congruence.
        -- by intros h' r [=].
        -- intros _. exists d, (PStr (dev_id device)), t.
           repeat split; try done. right. exists device.
           repeat split; try done. by left.
      * split; [|split].
        -- split; [by intros (? & ? & [=] & _)|].
           intros [[=]|(d' & [= <-] & [?|[?|(i & ? & ?)]])]; congruence.
        -- intros h' r [= <- <-] [? [=]].
        -- intros _. exists d, (PStr (dev_id device)), t.
           repeat split; try done. right. exists device.
           repeat split; try done. right.
           repeat split; try done.
           ++ intros k v Hk. by rewrite event_data_lookup, Hk.
           ++ intros Hk. by rewrite event_data_lookup, Hk.
           ++ intros Hk. by rewrite event_data_lookup, Hk.
    + split; [|split].
      * split; [|by eexists _, _]. intros _. right. exists d.
        split; [done|]. right. right. by exists i.
      * by intros h' r [= <- <-].
      * intros []. right. exists d.
        split; [done|]. right. right. by exists i.
Qed.

(** C10: in the event that [handle_webhook] fires, the payload is
    written last: a "name" or "webhook_id" item of the payload is
    what the event carries under that key, and only where the
    payload has no such item does the event carry the registered
    device name or the webhook id. *)
Theorem handle_webhook_payload_overrides webhook_id v h h' :
  handle_webhook webhook_id (json v) h = (h', inr None) ->
  exists (d : pydict) device event_name,
    v = PDict d
    /\ async_get (devices h) (dict_get d ATTR_DEVICE_ID) = inr (Some device)
    /\ bus h' = (bus h ++ [(event_name, event_data device webhook_id d)])%list
    /\ (forall k x, k ∈ [ATTR_NAME; ATTR_WEBHOOK_ID] -> d !! k = Some x ->
                    event_data device webhook_id d !! k = Some x)
    /\ (d !! ATTR_NAME = None ->
        event_data device webhook_id d !! ATTR_NAME = Some (dev_name device))
    /\ (d !! ATTR_WEBHOOK_ID = None ->
        event_data device webhook_id d !! ATTR_WEBHOOK_ID
        = Some (PStr webhook_id)).
Proof.
  drop_unused. intros H.
  destruct (handle_webhook_fires_on_dict _ _ _ _ H) as [d ->].
  rewrite handle_webhook_dict in H. unfold dict_get.
  destruct (d !! ATTR_DEVICE_ID) as [i|] eqn:Hi; [|done].
  destruct (d !! ATTR_EVENT_TYPE) as [t|]; [|done]. simpl.
  destruct (async_get (devices h) i) as [e|[device|]] eqn:Hdev;
    [done| |done].
  cbv zeta in H. destruct (_ <? _)%nat; [done|].
  injection H as <-.
  exists d, device, (DOMAIN ++ "." ++ py_str repr_container t).
  repeat split; try done.
  - by rewrite Hi.
  - intros k x _ Hk. by rewrite event_data_lookup, Hk.
  - intros Hk. by rewrite event_data_lookup, Hk.
  - intros Hk. by rewrite event_data_lookup, Hk.
Qed.

(** ** [async_setup_entry] and [async_unload_entry] *)

Lemma entry_state_setdefault h id :
  entry_state (setdefault_domain h) id = entry_state h id.
Proof.
  unfold entry_state, setdefault_domain.
  destruct (hass_data h !! DOMAIN) eqn:H; simpl; [by rewrite H|].
  by rewrite lookup_insert_eq.
Qed.

Lemma unload_entry_unregisters h h'' r webhook_id :
  data (entry h) !! CONF_WEBHOOK_ID = Some webhook_id ->
  async_unload_entry h = (h'', r) ->
  webhooks h'' !! webhook_id = None.
Proof.
  drop_unused. intros Hwid. unfold async_unload_entry. run.
  rewrite Hwid. run. intros H.
  repeat case_match; simplify_eq/=; apply lookup_delete_eq.
Qed.

(** C7: when the login fails with a client error, the client session
    is closed and then the exception is raised:
    [ConfigEntryAuthFailed] for an invalid-auth error,
    [ConfigEntryNotReady] for any other client error.  Nothing but
    the [DOMAIN] slot of [hass.data] has changed by then: the entry
    has no runtime state (client, coordinator), no webhook is
    registered and no task is created. *)
Theorem setup_entry_login_failure h url :
  data (entry h) !! CONF_URL = Some url ->
  remote_login h = LoginInvalidAuth \/ remote_login h = LoginClientError ->
  exists h',
    async_setup_entry h
    = (h', inl (match remote_login h with
                | LoginInvalidAuth => ConfigEntryAuthFailed
                | _ => ConfigEntryNotReady
                end))
    /\ client_calls h'
       = (client_calls h ++ [async_client_login; async_client_close])%list
    /\ (forall id, entry_state h' id = entry_state h id)
    /\ entry h' = entry h
    /\ webhooks h' = webhooks h
    /\ tasks h' = tasks h.
Proof.
  drop_unused. intros Hurl Hlogin.
  exists (set_client_calls
            (client_calls h ++ [async_client_login; async_client_close])
            (setdefault_domain h)).
  assert (entry (setdefault_domain h) = entry h
          /\ remote_login (setdefault_domain h) = remote_login h
          /\ client_calls (setdefault_domain h) = client_calls h
          /\ webhooks (setdefault_domain h) = webhooks h
          /\ tasks (setdefault_domain h) = tasks h) as (He & Hr & Hc & Hw & Ht).
  { unfold setdefault_domain. by destruct (hass_data h !! DOMAIN). }
  split; [|split; [|split; [|split; [|split]]]]; try done.
  - unfold async_setup_entry. run. rewrite He, Hurl. run. rewrite Hr.
    destruct Hlogin as [-> | ->]; run; rewrite Hc, <- app_assoc; done.
  - intros id. apply entry_state_setdefault.
Qed.

(** C8: when [async_setup_entry] returns [True], the entry's data
    holds a webhook id (the one it had, or else the id generated
    during the call and stored in the entry), [handle_webhook] is
    registered under that id, and [async_unload_entry] unregisters
    that id. *)
Theorem setup_entry_registers_webhook h h' :
  async_setup_entry h = (h', inr true) ->
  exists webhook_id,
    data (entry h') !! CONF_WEBHOOK_ID = Some webhook_id
    /\ webhook_id = default (async_generate_id (ids_drawn h))
                      (data (entry h) !! CONF_WEBHOOK_ID)
    /\ webhooks h' !! webhook_id
       = Some {| wh_domain := DOMAIN; wh_name := "motionEye";
                 wh_handler := handle_webhook_ref |}
    /\ forall h'' r,
         async_unload_entry h' = (h'', r) -> webhooks h'' !! webhook_id = None.
Proof.
  drop_unused. unfold async_setup_entry. run.
  assert (entry (setdefault_domain h) = entry h
          /\ remote_login (setdefault_domain h) = remote_login h
          /\ ids_drawn (setdefault_domain h) = ids_drawn h
          /\ webhooks (setdefault_domain h) = webhooks h) as (He & Hr & Hi & Hw).
  { unfold setdefault_domain. by destruct (hass_data h !! DOMAIN). }
  rewrite He. destruct (data (entry h) !! CONF_URL) as [url|]; [|done].
  run. rewrite Hr. destruct (remote_login h); try done. run. rewrite He.
  destruct (data (entry h) !! CONF_WEBHOOK_ID) as [w|] eqn:Hwid; run.
  - rewrite He, Hwid. run.
    rewrite Hw. destruct (webhooks h !! w) eqn:Hfree; [done|]. run.
    destruct (hass_data _ !! DOMAIN); [|done]. run.
    intros [= <-]. exists w. run. rewrite He, Hwid, lookup_insert_eq.
    repeat split; try done.
    intros h'' r. apply unload_entry_unregisters. run. by rewrite He.
  - rewrite lookup_insert_eq. run. rewrite Hw, Hi.
    destruct (webhooks h !! _) eqn:Hfree; [done|]. run.
    destruct (hass_data _ !! DOMAIN); [|done]. run.
    intros [= <-]. exists (async_generate_id (ids_drawn h)). run.
    rewrite !lookup_insert_eq.
    repeat split; try done.
    intros h'' r. apply unload_entry_unregisters. run.
    by rewrite lookup_insert_eq.
Qed.

(** ** Identifiers and entities *)

Lemma append_inv_l (s a b : string) : s ++ a = s ++ b -> a = b.
Proof.
  induction s as [|c s IH]; [done|]. intros [= H]. by apply IH.
Qed.

Lemma length_append (a b : string) :
  String.length (a ++ b) = String.length a + String.length b.
Proof.
  induction a as [|c a IH]; [done|].
  change (String c a ++ b) with (String c (a ++ b)). simpl. by rewrite IH.
Qed.

Lemma append_inv_r (a b s : string) : a ++ s = b ++ s -> a = b.
Proof.
  revert b. induction a as [|c a IH]; intros [|c' b] H; [done| | |].
  - apply (f_equal String.length) in H.
    change ("" ++ s) with s in H.
    change (String c' b ++ s) with (String c' (b ++ s)) in H.
    simpl in H. rewrite length_append in H. lia.
  - apply (f_equal String.length) in H.
    change ("" ++ s) with s in H.
    change (String c a ++ s) with (String c (a ++ s)) in H.
    simpl in H. rewrite length_append in H. lia.
  - injection H as -> H. f_equal. by apply IH.
Qed.

(** X1: within one config entry, cameras with different integer ids
    have different device identifiers, and so have cameras with
    different string ids. *)
Theorem device_identifier_inj config_entry_id :
  (forall z1 z2,
     get_motioneye_device_identifier config_entry_id (PInt z1)
     = get_motioneye_device_identifier config_entry_id (PInt z2) -> z1 = z2)
  /\ (forall s1 s2,
        get_motioneye_device_identifier config_entry_id (PStr s1)
        = get_motioneye_device_identifier config_entry_id (PStr s2) ->
        s1 = s2).
Proof.
  unfold get_motioneye_device_identifier. split.
  - intros z1 z2 [= H]. apply append_inv_l, append_inv_l in H.
    simpl in H. by apply (inj pretty).
  - intros s1 s2 [= H]. by apply append_inv_l, append_inv_l in H.
Qed.

(** X2: the unique id of an entity is the text of the camera's device
    identifier followed by "_" and the entity type; for one camera,
    different types give different unique ids, and for one type,
    different integer camera ids give different unique ids. *)
Theorem entity_unique_id_inj config_entry_id :
  (forall camera_id entity_type,
     get_motioneye_entity_unique_id config_entry_id camera_id entity_type
     = (get_motioneye_device_identifier config_entry_id camera_id).2
       ++ "_" ++ entity_type)
  /\ (forall camera_id t1 t2,
        get_motioneye_entity_unique_id config_entry_id camera_id t1
        = get_motioneye_entity_unique_id config_entry_id camera_id t2 ->
        t1 = t2)
  /\ (forall z1 z2 entity_type,
        get_motioneye_entity_unique_id config_entry_id (PInt z1) entity_type
        = get_motioneye_entity_unique_id config_entry_id (PInt z2) entity_type ->
        z1 = z2).
Proof.
  unfold get_motioneye_entity_unique_id, get_motioneye_device_identifier.
  split; [|split].
  - intros camera_id entity_type. simpl. by rewrite !append_assoc.
  - intros camera_id t1 t2 H.
    by do 4 apply append_inv_l in H.
  - intros z1 z2 t H. apply append_inv_l, append_inv_l in H.
    rewrite <- !append_assoc in H. apply append_inv_r, append_inv_r in H.
    unfold py_str in H. by apply (inj pretty).
Qed.

(** X3: [MotionEyeEntity.__init__] raises [KeyError] for a camera
    without an id.  For an acceptable camera it succeeds, and the entity
    names as its device the identifier under which the poll registers
    that camera; its unique id is the text of that identifier followed
    by "_" and the type name. *)
Theorem entity_init_device e type_name camera opts :
  (camera !! KEY_ID = None ->
   MotionEyeEntity_init (entry_id e) type_name camera opts
   = inl (KeyError KEY_ID))
  /\ (is_acceptable_camera (Some camera) = true ->
      exists self,
        MotionEyeEntity_init (entry_id e) type_name camera opts = inr self
        /\ device_info self !! "identifiers"
           = Some {[camera_identifier e (Some camera)]}
        /\ unique_id self
           = (camera_identifier e (Some camera)).2 ++ "_" ++ type_name).
Proof.
  drop_unused. unfold MotionEyeEntity_init. split.
  - by intros ->.
  - intros (c & camera_id & name & [= <-] & Hid & _)%is_acceptable_camera_true.
    rewrite Hid. eexists. split; [done|].
    unfold device_info, unique_id, camera_identifier, dict_get. simpl.
    rewrite Hid. simpl. split; [by rewrite lookup_singleton_eq|].
    unfold get_motioneye_entity_unique_id. by rewrite !append_assoc.
Qed.

(** ** [get_camera_from_cameras] *)

(** X4: [get_camera_from_cameras] returns a camera exactly when the
    polled list has it, its id equals the camera id, and every camera
    before it is a dict with another id: the first match is returned. *)
Theorem get_camera_from_cameras_first camera_id poll c :
  get_camera_from_cameras camera_id poll = inr (Some c) <->
  exists pre post,
    cameras_of poll = (pre ++ Some c :: post)%list
    /\ eq_int (dict_get c KEY_ID) camera_id = true
    /\ Forall (fun x => exists c', x = Some c'
                 /\ eq_int (dict_get c' KEY_ID) camera_id = false) pre.
Proof.
  drop_unused. unfold get_camera_from_cameras.
  generalize (cameras_of poll). intros cameras.
  induction cameras as [|[c'|] rest IH]; simpl.
  - split; [done|]. by intros ([|? ?] & ? & ? & _).
  - destruct (eq_int (dict_get c' KEY_ID) camera_id) eqn:Heq.
    + split.
      * intros [= ->]. by exists [], rest.
      * intros ([|x pre] & post & Hl & Hc & Hpre).
        -- by injection Hl as -> _.
        -- injection Hl as <- _.
           apply Forall_cons in Hpre as [(? & [= <-] & ?) _]. congruence.
    + rewrite IH. split.
      * intros (pre & post & -> & Hc & Hpre).
        exists (Some c' :: pre), post. split; [done|]. split; [done|].
        constructor; [by eexists|done].
      * intros ([|x pre] & post & Hl & Hc & Hpre).
        -- injection Hl as -> _. congruence.
        -- injection Hl as <- ->.
           apply Forall_cons in Hpre as [_ Hpre]. by exists pre, post.
  - split; [done|]. intros ([|x pre] & post & Hl & Hc & Hpre); [done|].
    injection Hl as <- _. by apply Forall_cons in Hpre as [(? & [=] & _) _].
Qed.

(** X5: [get_camera_from_cameras] returns [None] exactly when every
    polled camera is a dict with another id; so it does when there is
    no poll data, when the data is empty and when it has no camera
    list.  It raises exactly when a [None] comes before any match. *)
Theorem get_camera_from_cameras_none camera_id poll :
  (get_camera_from_cameras camera_id poll = inr None <->
   Forall (fun x => exists c', x = Some c'
             /\ eq_int (dict_get c' KEY_ID) camera_id = false)
     (cameras_of poll))
  /\ ((poll = None \/ poll = Some ∅
       \/ exists d, poll = Some d /\ d !! KEY_CAMERAS = None) ->
      get_camera_from_cameras camera_id poll = inr None)
  /\ (forall e,
        get_camera_from_cameras camera_id poll = inl e <->
        e = OtherError
        /\ exists pre post,
             cameras_of poll = (pre ++ None :: post)%list
             /\ Forall (fun x => exists c', x = Some c'
                          /\ eq_int (dict_get c' KEY_ID) camera_id = false)
                  pre).
Proof.
  drop_unused. unfold get_camera_from_cameras.
  assert (forall cameras,
            find_camera camera_id cameras = inr None <->
            Forall (fun x => exists c', x = Some c'
                      /\ eq_int (dict_get c' KEY_ID) camera_id = false)
              cameras) as Hnone.
  { induction cameras as [|[c'|] rest IH]; simpl.
    - split; [by constructor|done].
    - destruct (eq_int (dict_get c' KEY_ID) camera_id) eqn:Heq.
      + split; [done|].
        intros [(? & [= <-] & ?) _]%Forall_cons. congruence.
      + rewrite IH. split.
        * intros H. constructor; [by eexists|done].
        * by intros [_ ?]%Forall_cons.
    - split; [done|]. by intros [(? & [=] & _) _]%Forall_cons. }
  split; [apply Hnone|]. split.
  - intros H. apply Hnone. unfold cameras_of.
    destruct H as [->|[->|(d & -> & Hd)]]; [constructor..|].
    case_bool_decide; [constructor|]. rewrite Hd. constructor.
  - intros e. generalize (cameras_of poll). intros cameras.
    induction cameras as [|[c'|] rest IH]; simpl.
    + split; [done|]. by intros (_ & [|? ?] & ? & ? & _).
    + destruct (eq_int (dict_get c' KEY_ID) camera_id) eqn:Heq.
      * split; [done|]. intros (_ & [|x pre] & post & Hl & Hpre); [done|].
        injection Hl as <- _.
        apply Forall_cons in Hpre as [(? & [= <-] & ?) _]. congruence.
      * rewrite IH. split.
        -- intros (-> & pre & post & -> & Hpre). split; [done|].
           exists (Some c' :: pre), post. split; [done|].
           constructor; [by eexists|done].
        -- intros (-> & [|x pre] & post & Hl & Hpre); [done|].
           injection Hl as <- ->. apply Forall_cons in Hpre as [_ Hpre].
           split; [done|]. by exists pre, post.
    + split.
      * intros [= <-]. split; [done|]. by exists [], rest.
      * by intros (-> & _).
Qed.


(** X23: looking a camera up by its id gives that camera back when the
    ids tell the polled cameras apart: if the camera is in the polled
    list under an integer id, every entry of the list is a dict, and
    no other entry has an equal id, then [get_camera_from_cameras]
    returns this camera, wherever in the list it stands. *)
Theorem get_camera_from_cameras_unique camera_id poll c :
  Some c ∈ cameras_of poll ->
  c !! KEY_ID = Some (PInt camera_id) ->
  (forall x, x ∈ cameras_of poll ->
     exists c', x = Some c'
                /\ (eq_int (dict_get c' KEY_ID) camera_id = true -> c' = c)) ->
  get_camera_from_cameras camera_id poll = inr (Some c).
Proof.
  drop_unused. unfold get_camera_from_cameras.
  generalize (cameras_of poll). intros cameras Hin Hid Hall.
  assert (eq_int (dict_get c KEY_ID) camera_id = true) as Hc.
  { unfold dict_get. rewrite Hid. simpl. apply Z.eqb_refl. }
  induction cameras as [|x rest IH]; [by apply elem_of_nil in Hin|].
  destruct (Hall x) as (c' & -> & Hsame); [by left|]. simpl.
  destruct (eq_int (dict_get c' KEY_ID) camera_id) eqn:Heq.
  - by rewrite Hsame.
  - apply IH.
    + apply elem_of_cons in Hin as [[= <-]|Hin]; [congruence|done].
    + intros y Hy. apply Hall. by right.
Qed.

(** ** More on [_set_webhook] *)

(** X6: [_set_webhook] raises exactly when overwrite is not requested
    and the camera's URL field holds a truthy number, that is [True],
    an integer other than 0 or a float other than zero: a value that
    is neither falsy nor a string, a list or a dict, so that the
    sentinel test cannot be made on it.  What it raises is the
    [TypeError] of that test. *)
Theorem set_webhook_raises_iff opts url key_url key_method key_enabled camera e :
  _set_webhook opts url key_url key_method key_enabled camera = inl e <->
  e = TypeError
  /\ overwrite_requested opts = false
  /\ exists v, camera !! key_url = Some v
               /\ is_number v = true /\ truthy v = true.
Proof.
  drop_unused.
  unfold _set_webhook, may_write, overwrite_requested, or_else, dict_get,
    _is_recognized_web_hook, py_in.
  destruct (truthy (dict_get_default _ _ _)); simpl.
  { split; [by destruct (needs_write _ _ _ _ _)|by intros (_ & ? & _)]. }
  destruct (camera !! key_url) as [v|] eqn:Hv; simpl.
  2:{ split; [by destruct (needs_write _ _ _ _ _)|].
      by intros (_ & _ & ? & ? & _). }
  destruct (truthy v) eqn:Htruthy; simpl.
  2:{ split; [by destruct (needs_write _ _ _ _ _)|].
      intros (_ & _ & v' & [= <-] & _ & ?). congruence. }
  destruct v as [|b|z|f|s|l|d]; simpl.
  - done.
  - split; [intros [= <-]; repeat split; eauto|by intros (-> & _)].
  - split; [intros [= <-]; repeat split; eauto|by intros (-> & _)].
  - split; [intros [= <-]; repeat split; eauto|by intros (-> & _)].
  - split; [by destruct (_ && _)|by intros (_ & _ & ? & [= <-] & ? & _)].
  - split; [by destruct (_ && _)|by intros (_ & _ & ? & [= <-] & ? & _)].
  - split; [by destruct (_ && _)|by intros (_ & _ & ? & [= <-] & ? & _)].
Qed.

(** X7: [_set_webhook] touches no other field of the camera than the
    three it is given.  When it returns [True] the URL field holds the
    target URL; the method field holds [KEY_HTTP_METHOD_POST_JSON]
    unless it is the URL field, and the enabled field holds [True]
    unless it is one of the other two. *)
Theorem set_webhook_fields opts url key_url key_method key_enabled
    camera camera' b :
  _set_webhook opts url key_url key_method key_enabled camera
  = inr (camera', b) ->
  (forall k, k <> key_url -> k <> key_method -> k <> key_enabled ->
             camera' !! k = camera !! k)
  /\ (b = true ->
      camera' !! key_url = Some (PStr url)
      /\ (key_method <> key_url ->
          camera' !! key_method = Some (PStr KEY_HTTP_METHOD_POST_JSON))
      /\ (key_enabled <> key_url -> key_enabled <> key_method ->
          camera' !! key_enabled = Some (PBool true))).
Proof.
  drop_unused. intros H. destruct b.
  - apply set_webhook_true in H as (_ & _ & ->). unfold hook_written. split.
    + intros k ? ? ?. by rewrite !lookup_insert_ne by congruence.
    + intros _. split; [by rewrite lookup_insert_eq|]. split.
      * intros ?. rewrite lookup_insert_ne by congruence.
        by rewrite lookup_insert_eq.
      * intros ? ?. rewrite !lookup_insert_ne by congruence.
        by rewrite lookup_insert_eq.
  - apply set_webhook_false in H as ->. by split.
Qed.

(** ** More on [_build_url] *)

Lemma str_le_refl s : str_le s s.
Proof. by destruct (str_le_total s s). Qed.

Lemma conversion_specifiers_raises ks : forall (d : odict) e,
  conversion_specifiers ks d = inl e <->
  exists pre k post,
    ks = (pre ++ k :: post)%list
    /\ e = KeyError k
    /\ KEY_WEB_HOOK_CONVERSION_SPECIFIERS !! k = None
    /\ Forall (fun k' => is_Some (KEY_WEB_HOOK_CONVERSION_SPECIFIERS !! k')) pre.
Proof.
  drop_unused. induction ks as [|k ks IH]; intros d e; simpl.
  - split; [done|]. by intros ([|? ?] & ? & ? & ? & _).
  - destruct (KEY_WEB_HOOK_CONVERSION_SPECIFIERS !! k) as [v|] eqn:Hk.
    + rewrite IH. split.
      * intros (pre & k' & post & -> & -> & Hnone & Hpre).
        exists (k :: pre), k', post. repeat split; try done.
        constructor; [by eexists|done].
      * intros ([|x pre] & k' & post & Hl & -> & Hnone & Hpre).
        -- injection Hl as <- _. congruence.
        -- injection Hl as <- ->. apply Forall_cons in Hpre as [_ Hpre].
           by exists pre, k', post.
    + split.
      * intros [= <-]. by exists [], k, ks.
      * intros ([|x pre] & k' & post & Hl & -> & Hnone & Hpre).
        -- by injection Hl as <- _.
        -- injection Hl as <- _. apply Forall_cons in Hpre as [[? ?] _].
           congruence.
Qed.

(** X8: [_build_url] raises exactly when some key has no conversion
    specifier; it then raises the [KeyError] of the least such key. *)
Theorem build_url_raises_iff device base event_type keys e :
  _build_url device base event_type keys = inl e <->
  exists k,
    e = KeyError k
    /\ k ∈ keys
    /\ KEY_WEB_HOOK_CONVERSION_SPECIFIERS !! k = None
    /\ forall k', k' ∈ keys ->
                  KEY_WEB_HOOK_CONVERSION_SPECIFIERS !! k' = None ->
                  str_le k k'.
Proof.
  drop_unused. unfold _build_url, query_params.
  pose proof (sorted_strongly keys) as Hsorted.
  destruct (conversion_specifiers (sorted keys) []) as [e'|d] eqn:Hc.
  - apply conversion_specifiers_raises in Hc
      as (pre & k & post & Hl & -> & Hnone & Hpre).
    assert (k ∈ keys /\
            forall k', k' ∈ keys ->
                       KEY_WEB_HOOK_CONVERSION_SPECIFIERS !! k' = None ->
                       str_le k k') as [Hin Hleast].
    { split.
      - apply sorted_elem_of. rewrite Hl. apply elem_of_app. right. by left.
      - intros k' Hk' Hnone'. apply sorted_elem_of in Hk'.
        rewrite Hl in Hk', Hsorted.
        apply elem_of_app in Hk' as [Hk'|Hk'].
        + rewrite Forall_forall in Hpre. destruct (Hpre _ Hk'). congruence.
        + apply StronglySorted_app_1_r, StronglySorted_cons in Hsorted
            as [Hle _].
          apply elem_of_cons in Hk' as [->|Hk']; [apply str_le_refl|].
          rewrite Forall_forall in Hle. by apply Hle. }
    split.
    + intros [= <-]. by exists k.
    + intros (k2 & -> & Hin2 & Hnone2 & Hleast2). do 2 f_equal.
      apply (anti_symm str_le); auto.
  - split; [done|]. intros (k & _ & Hin & Hnone & _).
    assert (conversion_specifiers (sorted keys) [] = inl (KeyError k)
            \/ exists k', conversion_specifiers (sorted keys) []
                          = inl (KeyError k')) as [?|[? ?]]; [|congruence..].
    apply sorted_elem_of in Hin. revert Hin. clear Hc Hsorted.
    generalize (@nil (string * string)). generalize (sorted keys).
    intros ks. induction ks as [|x ks IH]; intros d0 Hin; simpl.
    + by apply elem_of_nil in Hin.
    + destruct (KEY_WEB_HOOK_CONVERSION_SPECIFIERS !! x) eqn:Hx; [|by eauto].
      apply elem_of_cons in Hin as [->|Hin]; [congruence|]. by apply IH.
Qed.

Lemma count_char_app c s1 s2 :
  count_char c (s1 ++ s2) = count_char c s1 + count_char c s2.
Proof.
  induction s1 as [|x s1 IH]; [done|].
  change (String x s1 ++ s2) with (String x (s1 ++ s2)). simpl.
  rewrite IH. lia.
Qed.

Lemma count_separator_quote_plus c s :
  c = "&"%char \/ c = "="%char ->
  count_char c (quote_plus s "%{}") = 0.
Proof.
  intros Hc. rewrite quote_plus_chars_eq.
  induction s as [|x s IH]; [done|]. cbn [quote_plus_chars].
  rewrite count_char_app, IH, Nat.add_0_r.
  destruct Hc as [-> | ->];
    by destruct x as [[] [] [] [] [] [] [] []].
Qed.

(** X9: in the query string that [_build_url] encodes, the separators
    are where the parameters are and nowhere else: whatever the names
    and values hold, there is one "=" per parameter and one "&" between
    two parameters. *)
Theorem urlencode_separators (query : odict) :
  count_char "=" (urlencode query "%{}") = length query
  /\ count_char "&" (urlencode query "%{}") = length query - 1.
Proof.
  unfold urlencode. induction query as [|[k v] query [IH1 IH2]]; [done|].
  rewrite fmap_cons. cbn [join_amp fst snd length].
  destruct query as [|kv query].
  - cbn [fmap list_fmap length].
    rewrite !count_char_app, !count_separator_quote_plus by auto. done.
  - rewrite fmap_cons in *. 
    rewrite !count_char_app, !count_separator_quote_plus by auto.
    cbn [length] in *. rewrite IH1, IH2. simpl. lia.
Qed.


(** ** More on [_add_camera] *)

(** X10: a call of [_add_camera] that returns has sent exactly one
    camera-add signal, carrying the camera dict as the call leaves it;
    it has created a task pushing that same dict to the remote device,
    or else it has created no task and left the dict as it was.  A call
    that raises has sent no signal and has created no task.  Either
    way the dict is as it was but for the six hook fields, and has
    lost no field. *)
Theorem add_camera_signal_and_task camera_id camera ident h h' camera' r :
  _add_camera camera_id camera ident h = ((h', camera'), r) ->
  hooks_written camera camera'
  /\ match r with
     | inl _ => dispatched h' = dispatched h /\ tasks h' = tasks h
     | inr _ =>
         dispatched h'
         = (dispatched h
              ++ [(SIGNAL_CAMERA_ADD (entry_id (entry h)), camera')])%list
         /\ (tasks h' = tasks h /\ camera' = camera
             \/ tasks h'
                = (tasks h ++ [async_set_camera camera_id camera'])%list)
     end.
Proof.
  intros H. by apply add_camera_outcome in H as (_ & _ & _ & ? & _ & ?).
Qed.

(** X11: when the webhook option is off, or is on while the hub has no
    URL (the entry having a webhook id), [_add_camera] leaves the camera
    dict as it is and creates no task: it registers the device and
    sends the signal, nothing more. *)
Theorem add_camera_without_webhook camera_id camera ident h name :
  camera !! KEY_NAME = Some name ->
  truthy (dict_get_default (options (entry h)) CONF_WEBHOOK_SET
            DEFAULT_WEBHOOK_SET) = false
  \/ (is_Some (data (entry h) !! CONF_WEBHOOK_ID) /\ internal_url h = None) ->
  exists h',
    _add_camera camera_id camera ident h = ((h', camera), inr tt)
    /\ tasks h' = tasks h
    /\ dispatched h'
       = (dispatched h
            ++ [(SIGNAL_CAMERA_ADD (entry_id (entry h)), camera)])%list.
Proof.
  intros Hname Hoff.
  unfold _add_camera, async_get_or_create,
    async_generate_motioneye_webhook. run. rewrite Hname. run.
  destruct (get_or_create _ _ _ _ _ _ _) as [reg dev] eqn:Hreg. run.
  destruct Hoff as [-> | [[w Hw] Hurl]]; run; [by eexists|].
  destruct (truthy _); run; [|by eexists].
  rewrite Hw. run. rewrite Hurl. run. by eexists.
Qed.

(** X12: after a call of [_add_camera] that returns, the registry has
    a device that carries the identifier, is registered to the config
    entry, has the camera's name and has the manufacturer name as
    manufacturer and as model.  No device is removed: every device that
    was in the registry is still there under its id, with at least the
    identifiers and config entries it had. *)
Theorem add_camera_registers_device camera_id camera ident h h' camera' :
  _add_camera camera_id camera ident h = ((h', camera'), inr tt) ->
  (exists dev,
     dev ∈ devices h'
     /\ ident ∈ dev_identifiers dev
     /\ entry_id (entry h) ∈ dev_config_entries dev
     /\ camera !! KEY_NAME = Some (dev_name dev)
     /\ dev_manufacturer dev = MOTIONEYE_MANUFACTURER
     /\ dev_model dev = MOTIONEYE_MANUFACTURER)
  /\ (forall d, d ∈ devices h ->
        exists d', d' ∈ devices h'
                   /\ dev_id d' = dev_id d
                   /\ dev_identifiers d ⊆ dev_identifiers d'
                   /\ dev_config_entries d ⊆ dev_config_entries d').
Proof.
  intros H. apply add_camera_outcome in H as (_ & _ & _ & _ & Hdev & _).
  destruct (camera !! KEY_NAME) as [name|]; [|by destruct Hdev as (_ & _ & ?)].
  destruct (get_or_create _ _ _ _ _ _ _) as [reg dev] eqn:Hreg.
  simpl in Hdev. subst reg.
  pose proof (get_or_create_fields _ _ _ _ _ _ _ _ _ Hreg) as (? & ? & ?).
  apply get_or_create_spec in Hreg as (Hin & Hids & Heid & Hmono & _).
  split.
  - exists dev. repeat split; try done; [|by f_equal].
    apply Hids. by apply elem_of_singleton.
  - intros d Hd. by destruct (Hmono d Hd) as [_ ?].
Qed.

(** ** More on camera reconciliation *)

Lemma camera_hooks_written_refl c : camera_hooks_written c c.
Proof. destruct c; [apply hooks_written_refl|done]. Qed.

Lemma camera_hooks_written_trans c1 c2 c3 :
  camera_hooks_written c1 c2 -> camera_hooks_written c2 c3 ->
  camera_hooks_written c1 c3.
Proof.
  destruct c1, c2, c3; simpl; try done. apply hooks_written_trans.
Qed.

Lemma Forall2_camera_hooks_refl cameras :
  Forall2 camera_hooks_written cameras cameras.
Proof.
  induction cameras; constructor; [apply camera_hooks_written_refl|done].
Qed.

Lemma polled_hooks_written_refl polled :
  polled_hooks_written polled polled.
Proof.
  destruct polled as [d|]; [|done]. split; [done|].
  destruct (d !! KEY_CAMERAS); [|done]. apply Forall2_camera_hooks_refl.
Qed.

Lemma polled_hooks_written_trans p1 p2 p3 :
  polled_hooks_written p1 p2 -> polled_hooks_written p2 p3 ->
  polled_hooks_written p1 p3.
Proof.
  destruct p1 as [d1|], p2 as [d2|], p3 as [d3|]; simpl; try done.
  intros [H1 H1'] [H2 H2']. split.
  { intros k Hk. by rewrite H2, H1. }
  destruct (d1 !! KEY_CAMERAS), (d2 !! KEY_CAMERAS), (d3 !! KEY_CAMERAS);
    try done.
  eapply Forall2_trans; [|done..]. apply camera_hooks_written_trans.
Qed.

(** Storing a camera dict that differs from the stored one in its
    hooks. *)
Lemma store_camera_hooks n c c' rest h :
  (forall d all, coordinator_data h = Some d ->
                 d !! KEY_CAMERAS = Some all ->
                 drop n all = Some c :: rest) ->
  hooks_written c c' ->
  polled_hooks_written (coordinator_data h)
    (coordinator_data (store_camera n c' h))
  /\ forall d all, coordinator_data (store_camera n c' h) = Some d ->
                   d !! KEY_CAMERAS = Some all ->
                   drop (S n) all = rest.
Proof.
  drop_unused. intros Hall Hw. unfold store_camera. simpl.
  destruct (coordinator_data h) as [d|]; simpl; [|done].
  destruct (d !! KEY_CAMERAS) as [all|] eqn:Hc.
  2:{ split; [split; [done|by rewrite Hc]|].
      intros ? ? [= <-]. congruence. }
  specialize (Hall d all eq_refl Hc).
  assert (all !! n = Some (Some c)) as Hn.
  { rewrite <- (Nat.add_0_r n), <- lookup_drop. by rewrite Hall. }
  split.
  - split; [intros k Hk; by rewrite lookup_insert_ne|].
    rewrite lookup_insert_eq.
    rewrite <- (list_insert_id all n (Some c)) at 1 by done.
    apply Forall2_insert; [apply Forall2_camera_hooks_refl|done].
  - intros ? all' [= <-]. rewrite lookup_insert_eq. intros [= <-].
    rewrite drop_insert_lt by lia.
    rewrite (drop_S _ _ _ Hn) in Hall. by injection Hall.
Qed.

Lemma add_new_cameras_frame cameras : forall n inbound h h' r,
  (forall d all, coordinator_data h = Some d ->
                 d !! KEY_CAMERAS = Some all ->
                 drop n all = cameras) ->
  add_new_cameras n cameras inbound h = (h', r) ->
  untouched h h'
  /\ polled_hooks_written (coordinator_data h) (coordinator_data h')
  /\ current_cameras h ⊆ current_cameras h'
  /\ (exists new, dispatched h' = (dispatched h ++ new)%list)
  /\ (exists new, tasks h' = (tasks h ++ new)%list).
Proof.
  drop_unused.
  assert (forall h,
            untouched h h
            /\ polled_hooks_written (coordinator_data h) (coordinator_data h)
            /\ current_cameras h ⊆ current_cameras h
            /\ (exists new, dispatched h = (dispatched h ++ new)%list)
            /\ (exists new, tasks h = (tasks h ++ new)%list)) as Hsame.
  { intros h. split; [apply untouched_refl|].
    split; [apply polled_hooks_written_refl|]. split; [done|].
    split; exists []; by rewrite app_nil_r. }
  induction cameras as [|camera rest IH]; intros n inbound h h' r Hstore.
  { intros [= <- <-]. apply Hsame. }
  destruct (is_acceptable_camera camera) eqn:Hacc.
  2:{ cbn [add_new_cameras]. rewrite Hacc. intros [= <- <-]. apply Hsame. }
  clear Hsame.
  pose proof Hacc as (c & camera_id & name & -> & Hid & Hname)
    %is_acceptable_camera_true.
  rewrite (add_new_cameras_step c camera_id) by done. cbn zeta.
  destruct (bool_decide _).
  { apply IH. intros d all Hd Hc. specialize (Hstore d all Hd Hc).
    assert (all !! n = Some (Some c)) as Hn.
    { rewrite <- (Nat.add_0_r n), <- lookup_drop. by rewrite Hstore. }
    rewrite (drop_S _ _ _ Hn) in Hstore. by injection Hstore. }
  destruct (_add_camera _ _ _ _) as [[h2 c'] r2] eqn:Hadd.
  apply add_camera_outcome in Hadd as (Hu & Hpoll & Hcur & Hw & _ & Hout).
  simpl in Hcur, Hpoll.
  assert (untouched h h2) as Hu2.
  { revert Hu. unfold untouched. simpl. tauto. }
  destruct (store_camera_hooks n c c' rest h2) as [Hp3 Hstore3]; [|done|].
  { by rewrite Hpoll. }
  rewrite Hpoll in Hp3.
  assert (untouched h (store_camera n c' h2)) as Hu3.
  { revert Hu2. unfold untouched. simpl. tauto. }
  assert ((exists new, dispatched h2 = (dispatched h ++ new)%list)
          /\ exists new, tasks h2 = (tasks h ++ new)%list) as [Hd Ht].
  { destruct r2 as [e|[]]; simpl in Hout.
    - destruct Hout as [-> ->]. split; exists []; by rewrite app_nil_r.
    - destruct Hout as [-> [[-> _]| ->]]; split; eauto;
        exists []; by rewrite app_nil_r. }
  assert (current_cameras h ⊆ current_cameras h2) as Hsub.
  { rewrite Hcur. clear. set_solver. }
  destruct r2 as [e|[]].
  { intros [= <- <-]. done. }
  intros H. apply IH in H as (Hu4 & Hp4 & Hsub4 & [n1 Hd4] & [n2 Ht4]);
    [|done].
  simpl in Hsub4, Hd4, Ht4.
  split; [by eapply untouched_trans|].
  split; [by eapply polled_hooks_written_trans|]. split; [by etrans|].
  destruct Hd as [m1 Hd], Ht as [m2 Ht]. split.
  - exists (m1 ++ n1)%list. by rewrite Hd4, Hd, app_assoc.
  - exists (m2 ++ n2)%list. by rewrite Ht4, Ht, app_assoc.
Qed.

(** X13: whatever its outcome, the listener touches nothing but the
    registry, the dispatcher, the task queue, [current_cameras] and
    the hooks of the polled camera dicts: the coordinator's data keep
    their entries and their cameras, each camera dict being as it was
    but for the six hook fields.  The listener never takes an
    identifier out of [current_cameras], never takes back a signal and
    never drops a task. *)
Theorem process_cameras_frame h h' r :
  _async_process_motioneye_cameras h = (h', r) ->
  untouched h h'
  /\ polled_hooks_written (coordinator_data h) (coordinator_data h')
  /\ current_cameras h ⊆ current_cameras h'
  /\ (exists new, dispatched h' = (dispatched h ++ new)%list)
  /\ (exists new, tasks h' = (tasks h ++ new)%list).
Proof.
  assert (untouched h h
          /\ polled_hooks_written (coordinator_data h) (coordinator_data h)
          /\ current_cameras h ⊆ current_cameras h
          /\ (exists new, dispatched h = (dispatched h ++ new)%list)
          /\ (exists new, tasks h = (tasks h ++ new)%list)) as Hsame.
  { split; [apply untouched_refl|].
    split; [apply polled_hooks_written_refl|]. split; [done|].
    split; exists []; by rewrite app_nil_r. }
  destruct (coordinator_data h) as [d|] eqn:Hd.
  2:{ rewrite process_cameras_no_list by auto.
      intros [= <- <-]. by rewrite Hd. }
  destruct (d !! KEY_CAMERAS) as [cameras|] eqn:Hc.
  2:{ rewrite process_cameras_no_list by eauto.
      intros [= <- <-]. by rewrite Hd. }
  rewrite (process_cameras_eq h d cameras) by done. clear Hsame.
  destruct (add_new_cameras 0 cameras ∅ h) as [h1 r1] eqn:Hloop.
  apply add_new_cameras_frame in Hloop as (Hu & Hp & Hsub & Hdisp & Htasks).
  2:{ intros d0 all Hd0 Hall. rewrite Hd in Hd0. injection Hd0 as <-.
      rewrite Hc in Hall. by injection Hall as <-. }
  rewrite Hd in Hp.
  destruct r1 as [e|[inbound|]]; [by intros [= <- <-]| |by intros [= <- <-]].
  destruct (remove_stale_devices_spec
              (async_entries_for_config_entry (devices h1)
                 (entry_id (entry h1))) inbound h1) as (reg & -> & _).
  intros [= <- <-]. done.
Qed.

Lemma add_new_cameras_known cameras : forall n inbound h,
  camera_identifiers (entry h) (acceptable_prefix cameras)
    ⊆ current_cameras h ->
  add_new_cameras n cameras inbound h
  = (h, inr (if forallb is_acceptable_camera cameras
             then Some (inbound
                          ∪ camera_identifiers (entry h)
                              (acceptable_prefix cameras))
             else None)).
Proof.
  induction cameras as [|camera rest IH]; intros n inbound h Hsub.
  { cbn [add_new_cameras acceptable_prefix forallb]. unfold ret.
    unfold camera_identifiers. rewrite fmap_nil, list_to_set_nil.
    by rewrite (right_id_L ∅ (∪)). }
  destruct (is_acceptable_camera camera) eqn:Hacc.
  2:{ cbn [add_new_cameras forallb]. by rewrite Hacc. }
  pose proof Hacc as (c & camera_id & name & -> & Hid & Hname)
    %is_acceptable_camera_true.
  rewrite (add_new_cameras_step c camera_id) by done. cbn zeta.
  rewrite (camera_identifiers_cons _ c camera_id) in * by done.
  cbn [forallb]. rewrite Hacc. cbn [andb].
  rewrite bool_decide_eq_true_2
    by (apply Hsub, elem_of_union; left; by apply elem_of_singleton).
  rewrite IH by (etrans; [|exact Hsub]; apply union_subseteq_r).
  destruct (forallb _ _); [|done]. by rewrite (assoc_L (∪)).
Qed.

Lemma remove_stale_devices_noop entries inbound : forall h,
  Forall (fun d => device_matches inbound d = true) entries ->
  remove_stale_devices entries inbound h = (h, inr tt).
Proof.
  induction entries as [|e entries IH]; intros h Hall; [done|].
  apply Forall_cons in Hall as [He Hall].
  cbn [remove_stale_devices]. run. rewrite He. run. by apply IH.
Qed.

(** A poll that has nothing new to add and nothing stale to remove
    changes nothing. *)
Lemma process_cameras_settled h d cameras :
  coordinator_data h = Some d ->
  d !! KEY_CAMERAS = Some cameras ->
  camera_identifiers (entry h) (acceptable_prefix cameras)
    ⊆ current_cameras h ->
  (forallb is_acceptable_camera cameras = true ->
   forall dev, dev ∈ devices h ->
     entry_id (entry h) ∈ dev_config_entries dev ->
     device_matches
       (∅ ∪ camera_identifiers (entry h) (acceptable_prefix cameras)) dev
     = true) ->
  _async_process_motioneye_cameras h = (h, inr tt).
Proof.
  intros Hd Hc Hknown Hmatch.
  rewrite (process_cameras_eq h d cameras) by done.
  rewrite add_new_cameras_known by done.
  destruct (forallb is_acceptable_camera cameras); [|done].
  apply remove_stale_devices_noop.
  apply Forall_forall. intros dev [Hcfg Hin]%list_elem_of_filter.
  by apply Hmatch.
Qed.

(** What a poll handled without raising leaves behind, as far as the
    next poll is concerned. *)
Lemma process_cameras_leaves h h1 d cameras :
  coordinator_data h = Some d ->
  d !! KEY_CAMERAS = Some cameras ->
  _async_process_motioneye_cameras h = (h1, inr tt) ->
  entry h1 = entry h
  /\ camera_identifiers (entry h) (acceptable_prefix cameras)
       ⊆ current_cameras h1
  /\ (forallb is_acceptable_camera cameras = true ->
      forall dev, dev ∈ devices h1 ->
        entry_id (entry h) ∈ dev_config_entries dev ->
        device_matches
          (∅ ∪ camera_identifiers (entry h) (acceptable_prefix cameras)) dev
        = true).
Proof.
  intros Hd Hc H.
  rewrite (process_cameras_eq h d cameras) in H by done.
  destruct (add_new_cameras 0 cameras ∅ h) as [hm [e|r]] eqn:Hloop; [done|].
  apply add_new_cameras_spec in Hloop
    as (Hem & Hcur & _ & _ & _ & _ & Hr & _).
  cbn zeta in *.
  destruct (forallb is_acceptable_camera cameras) eqn:Hall; subst r.
  - destruct (remove_stale_devices_spec
                (async_entries_for_config_entry (devices hm)
                   (entry_id (entry hm)))
                (∅ ∪ camera_identifiers (entry h) (acceptable_prefix cameras))
                hm) as (reg & Heq & Hreg).
    rewrite Heq in H. injection H as <-. simpl.
    split; [done|]. split; [rewrite Hcur; apply union_subseteq_r|].
    intros _ dev Hin Hcfg. apply Hreg in Hin as [Hin Hkeep].
    destruct (device_matches _ dev) eqn:Hm; [done|].
    exfalso. apply (Hkeep dev); [|done..].
    apply list_elem_of_filter. split; [by rewrite Hem|done].
  - injection H as <-. split; [done|].
    split; [rewrite Hcur; apply union_subseteq_r|done].
Qed.

(** Cameras that differ in their hooks only are the same to the
    listener, the id and the name being no hook fields. *)
Lemma hooks_same_identifiers e cameras cameras' :
  KEY_ID ∉ hook_fields -> KEY_NAME ∉ hook_fields ->
  Forall2 camera_hooks_written cameras cameras' ->
  camera_identifiers e (acceptable_prefix cameras')
  = camera_identifiers e (acceptable_prefix cameras)
  /\ forallb is_acceptable_camera cameras'
     = forallb is_acceptable_camera cameras.
Proof.
  intros Hid Hname. induction 1 as [|c c' l l' Hc _ [IH1 IH2]]; [done|].
  assert (is_acceptable_camera c' = is_acceptable_camera c
          /\ camera_identifier e c' = camera_identifier e c) as [Hacc Hident].
  { destruct c as [x|], c' as [x'|]; try done.
    destruct Hc as [Hsame Hkeep].
    unfold is_acceptable_camera, camera_identifier, dict_get. simpl.
    rewrite !(Hsame KEY_ID), !(Hsame KEY_NAME) by done.
    split; [|done].
    destruct (bool_decide (is_Some (x !! KEY_ID))) eqn:Hhas.
    2:{ by rewrite !andb_false_r. }
    apply bool_decide_eq_true in Hhas as [v Hv].
    assert (x <> ∅) as Hx by (intros ->; by rewrite lookup_empty in Hv).
    assert (x' <> ∅) as Hx'.
    { intros ->. specialize (Hsame KEY_ID Hid).
      rewrite lookup_empty in Hsame. congruence. }
    by rewrite (bool_decide_eq_false_2 _ Hx), (bool_decide_eq_false_2 _ Hx'). }
  cbn [forallb acceptable_prefix]. rewrite Hacc, IH2. split; [|done].
  destruct (is_acceptable_camera c); [|done].
  unfold camera_identifiers in *. rewrite !fmap_cons, !list_to_set_cons.
  by rewrite Hident, IH1.
Qed.

(** X14: reconciliation is idempotent: when a poll has been handled
    without raising, handling the same poll data once more changes
    nothing at all.  This holds for the data as a fresh poll brings
    them again, and it holds for the very data the first run worked
    on, with the hooks it wrote into the camera dicts, the id and the
    name of a camera being no hook fields. *)
Theorem process_cameras_again h h1 d cameras :
  coordinator_data h = Some d ->
  d !! KEY_CAMERAS = Some cameras ->
  _async_process_motioneye_cameras h = (h1, inr tt) ->
  _async_process_motioneye_cameras (set_coordinator_data (Some d) h1)
  = (set_coordinator_data (Some d) h1, inr tt)
  /\ (KEY_ID ∉ hook_fields -> KEY_NAME ∉ hook_fields ->
      _async_process_motioneye_cameras h1 = (h1, inr tt)).
Proof.
  intros Hd Hc H.
  pose proof (process_cameras_leaves _ _ _ _ Hd Hc H)
    as (He & Hknown & Hmatch).
  split.
  - apply (process_cameras_settled _ d cameras); simpl; try done.
    + by rewrite He.
    + rewrite He. exact Hmatch.
  - intros Hid Hname.
    assert (polled_hooks_written (coordinator_data h) (coordinator_data h1))
      as Hp.
    { rewrite (process_cameras_eq h d cameras) in H by done.
      destruct (add_new_cameras 0 cameras ∅ h) as [hm r1] eqn:Hloop.
      apply add_new_cameras_frame in Hloop as (_ & Hp & _).
      2:{ intros d0 all Hd0 Hall. rewrite Hd in Hd0. injection Hd0 as <-.
          rewrite Hc in Hall. by injection Hall as <-. }
      destruct r1 as [e|[inbound|]]; [done| |by injection H as <-].
      destruct (remove_stale_devices_spec
                  (async_entries_for_config_entry (devices hm)
                     (entry_id (entry hm))) inbound hm) as (reg & Heq & _).
      rewrite Heq in H. by injection H as <-. }
    rewrite Hd in Hp.
    destruct (coordinator_data h1) as [d1|] eqn:Hd1; [|done].
    destruct Hp as [_ Hp]. rewrite Hc in Hp.
    destruct (d1 !! KEY_CAMERAS) as [cameras1|] eqn:Hc1; [|done].
    destruct (hooks_same_identifiers (entry h) _ _ Hid Hname Hp)
      as [Hids Hacc].
    apply (process_cameras_settled _ d1 cameras1); try done.
    + by rewrite He, Hids.
    + rewrite He, Hids, Hacc. exact Hmatch.
Qed.

(** X15: a poll with an empty camera list removes every device that is
    registered to the config entry, and changes nothing else: the
    identifiers in [current_cameras] stay. *)
Theorem process_cameras_empty_list h d :
  coordinator_data h = Some d ->
  d !! KEY_CAMERAS = Some [] ->
  exists reg,
    _async_process_motioneye_cameras h = (set_devices reg h, inr tt)
    /\ (forall dev, dev ∈ reg ->
          dev ∈ devices h
          /\ entry_id (entry h) ∉ dev_config_entries dev)
    /\ (forall dev, dev ∈ devices h ->
          (forall e, e ∈ devices h ->
                     entry_id (entry h) ∈ dev_config_entries e ->
                     dev_id dev <> dev_id e) ->
          dev ∈ reg).
Proof.
  intros Hd Hc. rewrite (process_cameras_eq h d []) by done.
  cbn [add_new_cameras]. unfold ret.
  destruct (remove_stale_devices_spec
              (async_entries_for_config_entry (devices h)
                 (entry_id (entry h))) ∅ h) as (reg & -> & Hreg).
  exists reg. split; [done|].
  assert (forall e, device_matches ∅ e = false) as Hstale.
  { intros e. apply not_true_iff_false.
    by intros (i & _ & ?%elem_of_empty)%device_matches_true. }
  split.
  - intros dev [Hin Hkeep]%Hreg. split; [done|]. intros Hcfg.
    apply (Hkeep dev); [by apply list_elem_of_filter|done..].
  - intros dev Hin Hids. apply Hreg. split; [done|].
    intros e [? ?]%list_elem_of_filter _. by apply Hids.
Qed.

(** ** More on [async_setup_entry] and [async_unload_entry] *)

Lemma setdefault_domain_spec h :
  exists hd,
    setdefault_domain h = set_hass_data hd h
    /\ hd !! DOMAIN = Some (default ∅ (hass_data h !! DOMAIN))
    /\ forall k, k <> DOMAIN -> hd !! k = hass_data h !! k.
Proof.
  unfold setdefault_domain. destruct (hass_data h !! DOMAIN) as [g|] eqn:Hg.
  - exists (hass_data h). split; [by destruct h|]. by split.
  - eexists. split; [done|]. split; [by rewrite lookup_insert_eq|].
    intros k Hk. by rewrite lookup_insert_ne.
Qed.

(** X16: [async_setup_entry] returns exactly when the entry data has a
    URL, the login succeeds and the webhook id (the entry's, or else
    the next generated one) is free.  It then returns [True], having
    logged in without closing the session, stored the runtime state of
    this entry and of no other, emptied [current_cameras] and created
    the one task that sets up the platforms; the registry, the bus and
    the dispatcher are as before. *)
Theorem setup_entry_succeeds_iff h :
  ((exists h' b, async_setup_entry h = (h', inr b)) <->
   is_Some (data (entry h) !! CONF_URL)
   /\ remote_login h = LoginOk
   /\ webhooks h !! default (async_generate_id (ids_drawn h))
                      (data (entry h) !! CONF_WEBHOOK_ID) = None)
  /\ (forall h' b,
        async_setup_entry h = (h', inr b) ->
        b = true
        /\ client_calls h' = (client_calls h ++ [async_client_login])%list
        /\ (exists url,
              data (entry h) !! CONF_URL = Some url
              /\ entry_state h' (entry_id (entry h))
                 = Some {| CONF_CLIENT := url; CONF_COORDINATOR := DOMAIN |})
        /\ (forall id, id <> entry_id (entry h) ->
                       entry_state h' id = entry_state h id)
        /\ tasks h'
           = (tasks h ++ [setup_then_listen (entry_id (entry h))])%list
        /\ current_cameras h' = ∅
        /\ devices h' = devices h
        /\ bus h' = bus h
        /\ dispatched h' = dispatched h).
Proof.
  drop_unused.
  destruct (setdefault_domain_spec h) as (hd & Hsd & Hdom & Hother).
  unfold async_setup_entry. run. rewrite Hsd. simpl.
  destruct (data (entry h) !! CONF_URL) as [url|] eqn:Hurl; run.
  2:{ split; [|done]. split; [by intros (? & ? & ?)|by intros [[? ?] _]]. }
  destruct (remote_login h) eqn:Hlogin; run;
    try (split; [|done];
         split; [by intros (? & ? & ?)|by intros (_ & ? & _)]).
  destruct (data (entry h) !! CONF_WEBHOOK_ID) as [w|] eqn:Hwid; run.
  - rewrite Hwid. run.
    destruct (webhooks h !! w) eqn:Hfree; run.
    { split; [|done]. split; [by intros (? & ? & ?)|by intros (_ & _ & ?)]. }
    rewrite Hdom. run. split.
    + split; [by eauto|]. intros _. by eexists _, _.
    + intros h' b [= <- <-]. simpl.
      unfold entry_state. simpl. rewrite lookup_insert_eq. simpl.
      rewrite lookup_insert_eq.
      repeat split; try done; [by exists url|].
      intros id Hid. rewrite lookup_insert_ne by done.
      by destruct (hass_data h !! DOMAIN).
  - rewrite lookup_insert_eq. run.
    destruct (webhooks h !! _) eqn:Hfree; run.
    { split; [|done]. split; [by intros (? & ? & ?)|by intros (_ & _ & ?)]. }
    rewrite Hdom. run. split.
    + split; [by eauto|]. intros _. by eexists _, _.
    + intros h' b [= <- <-]. simpl.
      unfold entry_state. simpl. rewrite lookup_insert_eq. simpl.
      rewrite lookup_insert_eq.
      repeat split; try done; [by exists url|].
      intros id Hid. rewrite lookup_insert_ne by done.
      by destruct (hass_data h !! DOMAIN).
Qed.

(** X17: [async_setup_entry] does not log in when the entry data has no
    URL: it raises [KeyError].  When the login fails with an exception
    that is no client error, the exception goes through and the client
    session is not closed. *)
Theorem setup_entry_other_failures h :
  (data (entry h) !! CONF_URL = None ->
   exists h',
     async_setup_entry h = (h', inl (KeyError CONF_URL))
     /\ client_calls h' = client_calls h)
  /\ (is_Some (data (entry h) !! CONF_URL) ->
      remote_login h = LoginOtherError ->
      exists h',
        async_setup_entry h = (h', inl OtherError)
        /\ client_calls h' = (client_calls h ++ [async_client_login])%list
        /\ (forall id, entry_state h' id = entry_state h id)
        /\ webhooks h' = webhooks h
        /\ tasks h' = tasks h).
Proof.
  drop_unused.
  destruct (setdefault_domain_spec h) as (hd & Hsd & Hdom & Hother).
  assert (forall id, entry_state (set_hass_data hd h) id = entry_state h id)
    as Hstate.
  { intros id. rewrite <- Hsd. apply entry_state_setdefault. }
  unfold async_setup_entry. run. rewrite Hsd. simpl. split.
  - intros ->. run. by eexists.
  - intros [url Hurl] Hlogin. rewrite Hurl. run. rewrite Hlogin. run.
    eexists. split; [done|]. simpl.
    split; [done|]. split; [|done]. intros id. rewrite <- (Hstate id).
    by unfold entry_state.
Qed.

(** X18: setting an entry up and unloading it again, the platforms
    unloading well, gives back the webhook table as it was and leaves
    no runtime state for the entry; the session that was logged in is
    closed, and the runtime state of other entries is not touched. *)
Theorem setup_then_unload h h1 :
  async_setup_entry h = (h1, inr true) ->
  platforms_unload h = true ->
  exists h2,
    async_unload_entry h1 = (h2, inr true)
    /\ webhooks h2 = webhooks h
    /\ entry_state h2 (entry_id (entry h)) = None
    /\ (forall id, id <> entry_id (entry h) ->
                   entry_state h2 id = entry_state h id)
    /\ client_calls h2
       = (client_calls h ++ [async_client_login; async_client_close])%list.
Proof.
  drop_unused.
  destruct (setdefault_domain_spec h) as (hd & Hsd & Hdom & Hother).
  unfold async_setup_entry. run. rewrite Hsd. simpl.
  destruct (data (entry h) !! CONF_URL) as [url|] eqn:Hurl; run; [|done].
  destruct (remote_login h) eqn:Hlogin; run; try done.
  intros Hsetup Hunload.
  destruct (data (entry h) !! CONF_WEBHOOK_ID) as [w|] eqn:Hwid; run.
  - rewrite Hwid in Hsetup. run.
    destruct (webhooks h !! w) eqn:Hfree; run; [done|].
    rewrite Hdom in Hsetup. run. injection Hsetup as <-.
    unfold async_unload_entry. run. rewrite Hwid. run. rewrite Hunload. run.
    rewrite !lookup_insert_eq. run. eexists. split; [done|]. simpl.
    split; [by apply delete_insert_id|].
    unfold entry_state. simpl. rewrite !lookup_insert_eq. simpl.
    split; [by rewrite lookup_delete_eq|]. split.
    + intros id Hid. rewrite lookup_delete_ne, lookup_insert_ne by done.
      by destruct (hass_data h !! DOMAIN).
    + by rewrite <- app_assoc.
  - rewrite lookup_insert_eq in Hsetup. run.
    destruct (webhooks h !! _) eqn:Hfree; run; [done|].
    rewrite Hdom in Hsetup. run. injection Hsetup as <-.
    unfold async_unload_entry. run. rewrite lookup_insert_eq. run.
    rewrite Hunload. run. rewrite !lookup_insert_eq. run.
    eexists. split; [done|]. simpl.
    split; [by apply delete_insert_id|].
    unfold entry_state. simpl. rewrite !lookup_insert_eq. simpl.
    split; [by rewrite lookup_delete_eq|]. split.
    + intros id Hid. rewrite lookup_delete_ne, lookup_insert_ne by done.
      by destruct (hass_data h !! DOMAIN).
    + by rewrite <- app_assoc.
Qed.

(** X19: [async_unload_entry] unregisters the webhook before anything
    else.  When the platforms do not unload it returns [False] with the
    webhook gone, and the runtime state and the client session as they
    were; when the entry data has no webhook id it raises [KeyError]
    and nothing has changed; when the entry has no runtime state it
    raises [KeyError] after the webhook is gone, the session not being
    closed. *)
Theorem unload_entry_edges h :
  (data (entry h) !! CONF_WEBHOOK_ID = None ->
   async_unload_entry h = (h, inl (KeyError CONF_WEBHOOK_ID)))
  /\ (forall w,
        data (entry h) !! CONF_WEBHOOK_ID = Some w ->
        platforms_unload h = false ->
        async_unload_entry h
        = (set_webhooks (delete w (webhooks h)) h, inr false))
  /\ (forall w,
        data (entry h) !! CONF_WEBHOOK_ID = Some w ->
        platforms_unload h = true ->
        entry_state h (entry_id (entry h)) = None ->
        exists k,
          async_unload_entry h
          = (set_webhooks (delete w (webhooks h)) h, inl (KeyError k))).
Proof.
  drop_unused. unfold async_unload_entry, entry_state. run.
  split; [|split].
  - intros Hw. by rewrite Hw.
  - intros w Hw Hp. rewrite Hw. run. by rewrite Hp.
  - intros w Hw Hp. rewrite Hw. run. rewrite Hp. run.
    destruct (hass_data h !! DOMAIN) as [g|]; run; [|by eexists].
    intros Hs. rewrite Hs. by eexists.
Qed.


(** ** More on [handle_webhook] *)

(** X20: a body that decodes to JSON which is not an object never gets as
    far as the event bus: [key not in data] raises on a number, a
    boolean or null, and [data[ATTR_EVENT_TYPE]] raises on a string
    or a list that passed the two membership tests.  The hub is left
    as it was, and the call ends in a [TypeError] or in the 400
    response about a missing parameter. *)
Theorem handle_webhook_non_object webhook_id v h :
  (forall d, v <> PDict d) ->
  handle_webhook webhook_id (json v) h = (h, inl TypeError)
  \/ exists key,
       (key = ATTR_DEVICE_ID \/ key = ATTR_EVENT_TYPE)
       /\ handle_webhook webhook_id (json v) h
          = (h, inr (bad_request ("Missing webhook parameter: " ++ key))).
Proof.
  drop_unused. intros Hv.
  destruct v as [| | | | s |l|d]; [by left..| | |by destruct (Hv d)].
  - unfold handle_webhook, first_missing, bind, lift, ret. simpl.
    destruct (str_contains _ _); [|right; eexists; eauto].
    destruct (str_contains _ _); [by left|right; eexists; eauto].
  - unfold handle_webhook, first_missing, bind, lift, ret. simpl.
    destruct (existsb _ _); [|right; eexists; eauto].
    destruct (existsb _ _); [by left|right; eexists; eauto].
Qed.

(** X21: whatever the request, [handle_webhook] either leaves the hub
    exactly as it was or appends one event to the bus, and it appends
    the event exactly when it returns [None]: a call that answers
    with a response or raises has fired nothing, and events fired
    earlier are never dropped or reordered. *)
Theorem handle_webhook_frame webhook_id request h h' r :
  handle_webhook webhook_id request h = (h', r) ->
  (r = inr None /\ exists ev, h' = set_bus (bus h ++ [ev]) h)
  \/ (r <> inr None /\ h' = h).
Proof.
  drop_unused. destruct request as [|v].
  - intros [= <- <-]. by right.
  - destruct v as [| | | | s |l|d];
      try (intros [= <- <-]; by right).
    + unfold handle_webhook, first_missing, bind, lift, ret. simpl.
      destruct (str_contains _ _); [|intros [= <- <-]; by right].
      destruct (str_contains _ _); intros [= <- <-]; by right.
    + unfold handle_webhook, first_missing, bind, lift, ret. simpl.
      destruct (existsb _ _); [|intros [= <- <-]; by right].
      destruct (existsb _ _); intros [= <- <-]; by right.
    + rewrite handle_webhook_dict.
      destruct (d !! ATTR_DEVICE_ID) as [i|]; [|intros [= <- <-]; by right].
      destruct (d !! ATTR_EVENT_TYPE) as [t|]; [|intros [= <- <-]; by right].
      destruct (async_get (devices h) i) as [e|[device|]];
        [intros [= <- <-]; by right| |intros [= <- <-]; by right].
      cbv zeta. destruct (_ <? _)%nat; [intros [= <- <-]; by right|].
      intros [= <- <-]. left. split; [done|]. by eexists.
Qed.

(** X22: the text of the 400 responses for a JSON object.  The keys are
    checked in the order device_id, event_type, and both before the
    registry is asked: an object without device_id is answered
    "Missing webhook parameter: device_id" whether or not it has an
    event_type, an object with a device_id but no event_type is
    answered "Missing webhook parameter: event_type" whatever the
    device id is, and only an object with both keys gets as far as
    the registry.  There a device id that is a list or an object
    makes the lookup raise [TypeError]; any other device id that the
    registry does not have is answered "Device not found: " followed
    by the text of the id, and so is every id that is no string: a
    number, a boolean or null. *)
Theorem handle_webhook_response_text webhook_id (d : pydict) h :
  (d !! ATTR_DEVICE_ID = None ->
   handle_webhook webhook_id (json (PDict d)) h
   = (h, inr (Some {| text := "Missing webhook parameter: device_id";
                      status := BAD_REQUEST |})))
  /\ (is_Some (d !! ATTR_DEVICE_ID) -> d !! ATTR_EVENT_TYPE = None ->
      handle_webhook webhook_id (json (PDict d)) h
      = (h, inr (Some {| text := "Missing webhook parameter: event_type";
                         status := BAD_REQUEST |})))
  /\ (forall device_id,
        d !! ATTR_DEVICE_ID = Some device_id ->
        is_Some (d !! ATTR_EVENT_TYPE) ->
        ((exists l, device_id = PList l) \/ (exists m, device_id = PDict m) ->
         handle_webhook webhook_id (json (PDict d)) h = (h, inl TypeError))
        /\ (async_get (devices h) device_id = inr None ->
            handle_webhook webhook_id (json (PDict d)) h
            = (h, inr (Some {| text := "Device not found: "
                                       ++ py_str repr_container device_id;
                               status := BAD_REQUEST |})))
        /\ (device_id = PNone \/ is_number device_id = true ->
            async_get (devices h) device_id = inr None)).
Proof.
  drop_unused. rewrite handle_webhook_dict. split; [|split].
  - by intros ->.
  - by intros [i ->] ->.
  - intros i -> [t ->]. split; [|split].
    + by intros [[l ->]|[m ->]].
    + by intros ->.
    + intros [->|Hi]; [done|]. by destruct i.
Qed.

End MotionEye.

(** * Closed instances *)

(** The constants as the released integration and its client library
    have them, and stand-ins for the library functions. *)
Abbreviation example_specifiers :=
  (<["event" := "%v"]> (<["camera_id" := "%t"]> ∅) : gmap string string).

Abbreviation example_repr := (fun _ : pyval => "<container>").

Abbreviation example_set_webhook :=
  (_set_webhook "src" "hass-motioneye" "POSTj"
     "webhook_set_overwrite" (PBool false)).

Abbreviation example_build_url :=
  (_build_url "src" "hass-motioneye" example_specifiers
     (fun base url => base ++ url)).

Abbreviation with_example_constants f :=
  (f "src" "hass-motioneye" "POSTj"
     "webhook_set" "webhook_set_overwrite" (PBool true) (PBool false)
     "webhook_id" "cameras" "id" "name"
     "web_hook_notifications_url" "web_hook_notifications_http_method"
     "web_hook_notifications_enabled" "web_hook_storage_url"
     "web_hook_storage_http_method" "web_hook_storage_enabled"
     example_specifiers "motion_detected" "file_stored"
     ["event"; "camera_id"] ["event"] "motionEye"
     (fun entry_id => "motioneye_camera_add_signal." ++ entry_id)
     (fun base url => base ++ url)
     (fun webhook_id => "/api/webhook/" ++ webhook_id)
     example_repr).

Abbreviation example_process :=
  (with_example_constants _async_process_motioneye_cameras).

Abbreviation example_entry :=
  {| entry_id := "e1";
     data := <["url" := "http://camera"]> (<["webhook_id" := "w1"]> ∅);
     options := ∅ |}.

Abbreviation example_camera :=
  (<["id" := PInt 1]> (<["name" := PStr "Front door"]> ∅) : pydict).

Abbreviation example_device :=
  {| dev_id := "d1"; dev_identifiers := {[("motioneye", "e1_7")]};
     dev_config_entries := {["e1"]}; dev_manufacturer := "motionEye";
     dev_model := "motionEye"; dev_name := PStr "Back yard" |}.

Abbreviation example_poll cameras :=
  (hub example_entry [example_device] (Some {["cameras" := cameras]})
     LoginOk (Some "http://hub:8123")).


(** C2 at the field names of the first call site. *)
Lemma set_webhook_idempotent_witness :
  exists camera',
    example_set_webhook ∅ "http://hub/api/webhook/w"
      "web_hook_notifications_url" "web_hook_notifications_http_method"
      "web_hook_notifications_enabled" example_camera = inr (camera', true)
    /\ example_set_webhook ∅ "http://hub/api/webhook/w"
         "web_hook_notifications_url" "web_hook_notifications_http_method"
         "web_hook_notifications_enabled" camera' = inr (camera', false).
Proof.
  eexists. split; [reflexivity|].
  apply set_webhook_idempotent with (camera := example_camera);
    first [discriminate | reflexivity].
Defined.

(** C3, as stated, fails for an acceptable camera that comes after one
    that is not acceptable: it is not in [current_cameras], and the
    poll neither signals it nor records it. *)
Lemma process_cameras_skips_after_unacceptable :
  let h := example_poll [None; Some example_camera] in
  is_acceptable_camera "id" "name" (Some example_camera) = true
  /\ (("motioneye", "e1_1") ∉ current_cameras h)
  /\ exists h', example_process h = (h', inr tt)
                /\ dispatched h' = []
                /\ current_cameras h' = ∅.
Proof.
  split; [by vm_compute|]. split; [by vm_compute|].
  eexists. split; [by vm_compute|]. by vm_compute.
Qed.

Lemma process_cameras_adds_new_witness :
  let h := example_poll [Some example_camera] in
  let h' := (example_process h).1 in
  let ids :=
    camera_identifiers "id" example_repr (entry h)
      (acceptable_prefix "id" "name" [Some example_camera]) in
  current_cameras h' = current_cameras h ∪ ids
  /\ (exists new,
        dispatched h' = (dispatched h ++ new)%list
        /\ Forall (fun x : string * pydict =>
                     x.1 = ("motioneye_camera_add_signal."
                              ++ entry_id (entry h))%string)
             new
        /\ length new = size (ids ∖ current_cameras h))
  /\ (forall i, i ∈ ids -> i ∉ current_cameras h ->
        exists dev, dev ∈ devices h' /\ i ∈ dev_identifiers dev
                    /\ entry_id (entry h) ∈ dev_config_entries dev)
  /\ (ids ⊆ current_cameras h ->
      dispatched h' = dispatched h /\ tasks h' = tasks h
      /\ forall dev, dev ∈ devices h' -> dev ∈ devices h).
Proof.
  intros h h' ids.
  apply (with_example_constants process_cameras_adds_new
           h h' {["cameras" := [Some example_camera]]}).
  - reflexivity.
  - reflexivity.
  - apply NoDup_singleton.
  - by vm_compute.
Defined.

(** C4, as stated, fails on a poll with a camera that is not
    acceptable: the device registered to the entry has no identifier
    derived from a polled camera, and it stays in the registry. *)
Lemma process_cameras_keeps_stale_device :
  let h := example_poll [None] in
  "e1" ∈ dev_config_entries example_device
  /\ camera_identifiers "id" example_repr example_entry [None]
     = {[("motioneye", "e1_None")]}
  /\ exists h', example_process h = (h', inr tt)
                /\ devices h' = [example_device].
Proof.
  split; [by vm_compute|]. split; [vm_compute; reflexivity|].
  eexists. split; vm_compute; reflexivity.
Qed.

Lemma process_cameras_removes_stale_witness :
  let h := example_poll [Some example_camera] in
  let h' := (example_process h).1 in
  let inbound :=
    camera_identifiers "id" example_repr (entry h) [Some example_camera] in
  (forall dev, dev ∈ devices h' ->
     entry_id (entry h) ∈ dev_config_entries dev ->
     exists i, i ∈ dev_identifiers dev /\ i ∈ inbound)
  /\ (forall dev, dev ∈ devices h ->
        entry_id (entry h) ∈ dev_config_entries dev ->
        (forall i, i ∈ dev_identifiers dev -> i ∉ inbound) ->
        dev_id dev ∉ device_ids (devices h')).
Proof.
  intros h h' inbound.
  apply (with_example_constants process_cameras_removes_stale
           h h' {["cameras" := [Some example_camera]]}).
  - reflexivity.
  - reflexivity.
  - constructor; [by vm_compute|constructor].
  - by vm_compute.
Defined.

(** C5, as stated, fails on a body that is JSON but not an object: the
    call raises, so that there is neither a 400 response nor an event.
    It fails on a JSON object that has both keys and names a known
    device, when the event type makes a name of more than 64
    characters: the event bus raises.  It fails on a JSON object whose
    device id is a list: the registry lookup raises.  And it fails on
    a payload with a "name" item: the event carries that item and not
    the name of the device. *)
Lemma handle_webhook_neither_response_nor_event :
  let h := hub example_entry [example_device] None LoginOk None in
  let payload : pydict :=
    <["device_id" := PStr "d1"]>
      (<["event_type" := PStr "motion_detected"]>
         (<["name" := PStr "somebody else"]> ∅)) in
  let long : pydict :=
    <["device_id" := PStr "d1"]>
      (<["event_type" :=
           PStr "a_very_long_event_type_that_takes_up_more_than_54_characters"]>
         ∅) in
  let unhashable : pydict :=
    <["device_id" := PList [PStr "d1"]]>
      (<["event_type" := PStr "motion_detected"]> ∅) in
  handle_webhook example_repr "w1" (json (PInt 5)) h = (h, inl TypeError)
  /\ handle_webhook example_repr "w1" (json (PDict long)) h
     = (h, inl MaxLengthExceeded)
  /\ handle_webhook example_repr "w1" (json (PDict unhashable)) h
     = (h, inl TypeError)
  /\ exists h' data,
       handle_webhook example_repr "w1" (json (PDict payload)) h
       = (h', inr None)
       /\ bus h' = [("motioneye.motion_detected", data)]
       /\ data !! "name" = Some (PStr "somebody else")
       /\ dev_name example_device = PStr "Back yard".
Proof.
  intros h payload long unhashable.
  split; [reflexivity|]. split; [vm_compute; reflexivity|].
  split; [vm_compute; reflexivity|].
  exists (handle_webhook example_repr "w1" (json (PDict payload)) h).1,
    (event_data example_device "w1" payload).
  split; [vm_compute; reflexivity|].
  split; [vm_compute; reflexivity|]. split; vm_compute; reflexivity.
Qed.

Lemma handle_webhook_bad_request_iff_witness :
  let h := hub example_entry [example_device] None LoginOk None in
  let request := json (PDict (<["event_type" := PStr "motion_detected"]> ∅)) in
  exists h' r,
    handle_webhook example_repr "w1" request h = (h', inr (Some r))
    /\ status r = BAD_REQUEST.
Proof.
  intros h request.
  apply (handle_webhook_bad_request_iff example_repr "w1" request h).
  - right. by eexists.
  - right. eexists. split; [reflexivity|]. by left.
Defined.

Lemma handle_webhook_payload_overrides_witness :
  let h := hub example_entry [example_device] None LoginOk None in
  let payload : pydict :=
    <["device_id" := PStr "d1"]>
      (<["event_type" := PStr "motion_detected"]>
         (<["name" := PStr "somebody else"]> ∅)) in
  let h' := (handle_webhook example_repr "w1" (json (PDict payload)) h).1 in
  exists (d : pydict) device event_name,
    PDict payload = PDict d
    /\ async_get (devices h) (dict_get d ATTR_DEVICE_ID) = inr (Some device)
    /\ bus h' = (bus h ++ [(event_name, event_data device "w1" d)])%list
    /\ (forall k x, k ∈ [ATTR_NAME; ATTR_WEBHOOK_ID] -> d !! k = Some x ->
                    event_data device "w1" d !! k = Some x)
    /\ (d !! ATTR_NAME = None ->
        event_data device "w1" d !! ATTR_NAME = Some (dev_name device))
    /\ (d !! ATTR_WEBHOOK_ID = None ->
        event_data device "w1" d !! ATTR_WEBHOOK_ID = Some (PStr "w1")).
Proof.
  intros h payload h'.
  apply (handle_webhook_payload_overrides example_repr "w1" (PDict payload)
           h h').
  vm_compute. reflexivity.
Defined.

Lemma build_url_query_witness :
  ((exists specifiers : odict,
      StronglySorted str_le specifiers.*1
      /\ NoDup specifiers.*1
      /\ (forall k, k ∈ specifiers.*1 <-> k ∈ ["event"; "camera_id"; "event"])
      /\ (forall k v, (k, v) ∈ specifiers -> example_specifiers !! k = Some v)
      /\ let params :=
           (specifiers ++
              [("src", "hass-motioneye");
               (ATTR_EVENT_TYPE, "motion detected/1");
               (ATTR_DEVICE_ID, "d1")])%list in
         example_build_url example_device "http://hub:8123/api/webhook/w1"
           "motion detected/1" ["event"; "camera_id"; "event"]
         = inr ("http://hub:8123/api/webhook/w1"
                ++ "?" ++ query_string params)
         /\ (Forall (fun kv => plain kv.1 = true /\ plain kv.2 = true)
                params ->
             example_build_url example_device
               "http://hub:8123/api/webhook/w1"
               "motion detected/1" ["event"; "camera_id"; "event"]
             = inr ("http://hub:8123/api/webhook/w1"
                    ++ "?" ++ plain_query_string params)))
   /\ (forall c s1 s2,
         c ∈ ["%"; "{"; "}"]%char ->
         quote_plus (s1 ++ String c s2) "%{}"
         = quote_plus s1 "%{}" ++ String c (quote_plus s2 "%{}")))
  /\ example_build_url example_device "http://hub:8123/api/webhook/w1"
       "motion detected/1" ["event"; "camera_id"; "event"]
     = inr ("http://hub:8123/api/webhook/w1?camera_id=%t&event=%v"
            ++ "&src=hass-motioneye&event_type=motion+detected%2F1"
            ++ "&device_id=d1").
Proof.
  split; [|vm_compute; reflexivity].
  apply (build_url_query "src" "hass-motioneye" example_specifiers
           (fun base url => base ++ url) example_device
           "http://hub:8123/api/webhook/w1" "motion detected/1"
           ["event"; "camera_id"; "event"]).
  - intros k Hk. repeat (apply elem_of_cons in Hk as [->|Hk]);
      [by eexists..|by apply elem_of_nil in Hk].
  - reflexivity.
  - reflexivity.
  - reflexivity.
  - discriminate.
  - discriminate.
Defined.

Lemma setup_entry_login_failure_witness :
  let h := hub example_entry [] None LoginInvalidAuth None in
  exists h',
    async_setup_entry "url" "webhook_id" (fun n => "id" ++ pretty n) h
    = (h', inl ConfigEntryAuthFailed)
    /\ client_calls h'
       = (client_calls h ++ [async_client_login; async_client_close])%list
    /\ (forall id, entry_state h' id = entry_state h id)
    /\ entry h' = entry h
    /\ webhooks h' = webhooks h
    /\ tasks h' = tasks h.
Proof.
  intros h.
  exact (setup_entry_login_failure "url" "webhook_id"
           (fun n => "id" ++ pretty n) h "http://camera" eq_refl
           (or_introl eq_refl)).
Defined.

Lemma setup_entry_registers_webhook_witness :
  let gen := fun n : nat => "id" ++ pretty n in
  let h :=
    hub {| entry_id := "e1"; data := <["url" := "http://camera"]> ∅;
           options := ∅ |} [] None LoginOk None in
  let h' := (async_setup_entry "url" "webhook_id" gen h).1 in
  exists webhook_id,
    data (entry h') !! "webhook_id" = Some webhook_id
    /\ webhook_id = default (gen (ids_drawn h)) (data (entry h) !! "webhook_id")
    /\ webhooks h' !! webhook_id
       = Some {| wh_domain := DOMAIN; wh_name := "motionEye";
                 wh_handler := handle_webhook_ref |}
    /\ forall h'' r,
         async_unload_entry "webhook_id" h' = (h'', r) ->
         webhooks h'' !! webhook_id = None.
Proof.
  intros gen h h'.
  apply (setup_entry_registers_webhook "url" "webhook_id" gen h h').
  vm_compute. reflexivity.
Defined.

Lemma process_cameras_stops_early_witness :
  let h := example_poll [Some example_camera; None; Some example_camera] in
  example_process h
  = match
      with_example_constants add_new_cameras 0 [Some example_camera] ∅ h
    with
    | (h1, inl e) => (h1, inl e)
    | (h1, inr _) => (h1, inr tt)
    end.
Proof.
  intros h.
  destruct (with_example_constants process_cameras_stops_early h)
    as [_ Hstop].
  apply (Hstop {["cameras" := [Some example_camera; None; Some example_camera]]}
           [Some example_camera] None [Some example_camera]).
  - reflexivity.
  - reflexivity.
  - constructor; [by vm_compute|constructor].
  - reflexivity.
Defined.

(** ** Instances of the further properties *)

Abbreviation with_camera_constants f :=
  (f "src" "hass-motioneye" "POSTj"
     "webhook_set" "webhook_set_overwrite" (PBool true) (PBool false)
     "webhook_id" "name"
     "web_hook_notifications_url" "web_hook_notifications_http_method"
     "web_hook_notifications_enabled" "web_hook_storage_url"
     "web_hook_storage_http_method" "web_hook_storage_enabled"
     example_specifiers "motion_detected" "file_stored"
     ["event"; "camera_id"] ["event"] "motionEye"
     (fun entry_id => "motioneye_camera_add_signal." ++ entry_id)
     (fun base url => base ++ url)
     (fun webhook_id => "/api/webhook/" ++ webhook_id)).

Abbreviation example_add_camera :=
  (with_camera_constants _add_camera (PInt 1) example_camera
     ("motioneye", "e1_1")).

Lemma entity_init_device_witness :
  exists self,
    MotionEyeEntity_init "id" example_repr "e1" "camera" example_camera ∅
    = inr self
    /\ device_info self !! "identifiers"
       = Some {[camera_identifier "id" example_repr example_entry
                  (Some example_camera)]}
    /\ unique_id self
       = (camera_identifier "id" example_repr example_entry
            (Some example_camera)).2 ++ "_" ++ "camera".
Proof.
  apply (entity_init_device "id" "name" example_repr example_entry "camera"
           example_camera ∅).
  reflexivity.
Defined.

Lemma set_webhook_fields_witness :
  let camera : pydict := {["name" := PStr "Front door"]} in
  exists camera',
    example_set_webhook ∅ "http://hub/api/webhook/w" "url" "method"
      "enabled" camera = inr (camera', true)
    /\ (forall k, k <> "url" -> k <> "method" -> k <> "enabled" ->
                  camera' !! k = camera !! k)
    /\ (true = true ->
        camera' !! "url" = Some (PStr "http://hub/api/webhook/w")
        /\ ("method" <> "url" ->
            camera' !! "method" = Some (PStr "POSTj"))
        /\ ("enabled" <> "url" -> "enabled" <> "method" ->
            camera' !! "enabled" = Some (PBool true))).
Proof.
  intros camera. eexists. split; [reflexivity|].
  apply (set_webhook_fields "src" "hass-motioneye" "POSTj"
           "webhook_set_overwrite" (PBool false) ∅).
  reflexivity.
Defined.

Lemma add_camera_signal_and_task_witness :
  let h := example_poll [] in
  let h' := (example_add_camera h).1.1 in
  let camera' := (example_add_camera h).1.2 in
  hooks_written "web_hook_notifications_url"
    "web_hook_notifications_http_method" "web_hook_notifications_enabled"
    "web_hook_storage_url" "web_hook_storage_http_method"
    "web_hook_storage_enabled" example_camera camera'
  /\ dispatched h'
     = (dispatched h
          ++ [(("motioneye_camera_add_signal." ++ entry_id (entry h))%string,
               camera')])%list
  /\ (tasks h' = tasks h /\ camera' = example_camera
      \/ tasks h' = (tasks h ++ [async_set_camera (PInt 1) camera'])%list).
Proof.
  intros h h' camera'.
  apply (with_camera_constants add_camera_signal_and_task (PInt 1)
           example_camera ("motioneye", "e1_1") h h' camera' (inr tt)).
  vm_compute. reflexivity.
Defined.

Lemma add_camera_without_webhook_witness :
  let h := hub example_entry [] None LoginOk None in
  exists h',
    example_add_camera h = ((h', example_camera), inr tt)
    /\ tasks h' = tasks h
    /\ dispatched h'
       = (dispatched h
            ++ [(("motioneye_camera_add_signal."
                    ++ entry_id (entry h))%string,
                 example_camera)])%list.
Proof.
  intros h.
  apply (with_camera_constants add_camera_without_webhook (PInt 1)
           example_camera ("motioneye", "e1_1") h (PStr "Front door")).
  - reflexivity.
  - right. split; [by eexists|reflexivity].
Defined.

Lemma add_camera_registers_device_witness :
  let h := example_poll [] in
  let h' := (example_add_camera h).1.1 in
  (exists dev,
     dev ∈ devices h'
     /\ ("motioneye", "e1_1") ∈ dev_identifiers dev
     /\ entry_id (entry h) ∈ dev_config_entries dev
     /\ example_camera !! "name" = Some (dev_name dev)
     /\ dev_manufacturer dev = "motionEye"
     /\ dev_model dev = "motionEye")
  /\ (forall d, d ∈ devices h ->
        exists d', d' ∈ devices h'
                   /\ dev_id d' = dev_id d
                   /\ dev_identifiers d ⊆ dev_identifiers d'
                   /\ dev_config_entries d ⊆ dev_config_entries d').
Proof.
  intros h h'.
  apply (with_camera_constants add_camera_registers_device (PInt 1)
           example_camera ("motioneye", "e1_1") h h'
           (example_add_camera h).1.2).
  vm_compute. reflexivity.
Defined.

Lemma process_cameras_frame_witness :
  let h := example_poll [Some example_camera] in
  let h' := (example_process h).1 in
  untouched h h'
  /\ polled_hooks_written "cameras" "web_hook_notifications_url"
       "web_hook_notifications_http_method" "web_hook_notifications_enabled"
       "web_hook_storage_url" "web_hook_storage_http_method"
       "web_hook_storage_enabled" (coordinator_data h) (coordinator_data h')
  /\ current_cameras h ⊆ current_cameras h'
  /\ (exists new, dispatched h' = (dispatched h ++ new)%list)
  /\ (exists new, tasks h' = (tasks h ++ new)%list).
Proof.
  intros h h'.
  apply (with_example_constants process_cameras_frame h h' (inr tt)).
  vm_compute. reflexivity.
Defined.

(** The poll of the example writes both hooks into the camera dict of
    the coordinator's data. *)
Lemma process_cameras_writes_in_place :
  let h := example_poll [Some example_camera] in
  let h' := (example_process h).1 in
  match coordinator_data h' with
  | Some d =>
      match d !! "cameras" with
      | Some [Some camera'] =>
          camera' !! "web_hook_notifications_enabled" = Some (PBool true)
          /\ camera' !! "web_hook_storage_enabled" = Some (PBool true)
          /\ camera' !! "id" = Some (PInt 1)
      | _ => False
      end
  | None => False
  end.
Proof. vm_compute. repeat split; reflexivity. Qed.

Lemma process_cameras_again_witness :
  let h := example_poll [Some example_camera] in
  let h1 := (example_process h).1 in
  example_process
    (set_coordinator_data (Some {["cameras" := [Some example_camera]]}) h1)
  = (set_coordinator_data (Some {["cameras" := [Some example_camera]]}) h1,
     inr tt)
  /\ (("id" : string)
        ∉ hook_fields "web_hook_notifications_url"
            "web_hook_notifications_http_method"
            "web_hook_notifications_enabled" "web_hook_storage_url"
            "web_hook_storage_http_method" "web_hook_storage_enabled" ->
      ("name" : string)
        ∉ hook_fields "web_hook_notifications_url"
            "web_hook_notifications_http_method"
            "web_hook_notifications_enabled" "web_hook_storage_url"
            "web_hook_storage_http_method" "web_hook_storage_enabled" ->
      example_process h1 = (h1, inr tt)).
Proof.
  intros h h1.
  apply (with_example_constants process_cameras_again h h1
           {["cameras" := [Some example_camera]]} [Some example_camera]).
  - reflexivity.
  - reflexivity.
  - vm_compute. reflexivity.
Defined.

Lemma process_cameras_empty_list_witness :
  let h := example_poll [] in
  exists reg,
    example_process h = (set_devices reg h, inr tt)
    /\ (forall dev, dev ∈ reg ->
          dev ∈ devices h
          /\ entry_id (entry h) ∉ dev_config_entries dev)
    /\ (forall dev, dev ∈ devices h ->
          (forall e, e ∈ devices h ->
                     entry_id (entry h) ∈ dev_config_entries e ->
                     dev_id dev <> dev_id e) ->
          dev ∈ reg).
Proof.
  intros h.
  apply (with_example_constants process_cameras_empty_list h
           {["cameras" := []]}); reflexivity.
Defined.

Lemma setup_entry_other_failures_witness :
  let h := hub example_entry [] None LoginOtherError None in
  exists h',
    async_setup_entry "url" "webhook_id" (fun n => "id" ++ pretty n) h
    = (h', inl OtherError)
    /\ client_calls h' = (client_calls h ++ [async_client_login])%list
    /\ (forall id, entry_state h' id = entry_state h id)
    /\ webhooks h' = webhooks h
    /\ tasks h' = tasks h.
Proof.
  intros h.
  apply (setup_entry_other_failures "url" "webhook_id"
           (fun n => "id" ++ pretty n) h).
  - by eexists.
  - reflexivity.
Defined.

Lemma setup_then_unload_witness :
  let gen := fun n : nat => "id" ++ pretty n in
  let h := hub example_entry [] None LoginOk None in
  let h1 := (async_setup_entry "url" "webhook_id" gen h).1 in
  exists h2,
    async_unload_entry "webhook_id" h1 = (h2, inr true)
    /\ webhooks h2 = webhooks h
    /\ entry_state h2 (entry_id (entry h)) = None
    /\ (forall id, id <> entry_id (entry h) ->
                   entry_state h2 id = entry_state h id)
    /\ client_calls h2
       = (client_calls h ++ [async_client_login; async_client_close])%list.
Proof.
  intros gen h h1.
  apply (setup_then_unload "url" "webhook_id" gen h h1).
  - vm_compute. reflexivity.
  - reflexivity.
Defined.

Lemma unload_entry_edges_witness :
  let h := hub example_entry [] None LoginOk None in
  exists k,
    async_unload_entry "webhook_id" h
    = (set_webhooks (delete "w1" (webhooks h)) h, inl (KeyError k)).
Proof.
  intros h.
  apply (unload_entry_edges "webhook_id" h); reflexivity.
Defined.

Lemma handle_webhook_non_object_witness :
  let h := hub example_entry [example_device] None LoginOk None in
  let v := PList [PStr "device_id"; PStr "event_type"] in
  handle_webhook example_repr "w1" (json v) h = (h, inl TypeError)
  \/ exists key,
       (key = ATTR_DEVICE_ID \/ key = ATTR_EVENT_TYPE)
       /\ handle_webhook example_repr "w1" (json v) h
          = (h, inr (bad_request ("Missing webhook parameter: " ++ key))).
Proof.
  intros h v.
  apply (handle_webhook_non_object example_repr "w1" v h).
  intros d. discriminate.
Defined.

Lemma handle_webhook_frame_witness :
  let h := hub example_entry [example_device] None LoginOk None in
  let payload : pydict :=
    <["device_id" := PStr "d1"]>
      (<["event_type" := PStr "motion_detected"]> ∅) in
  let out := handle_webhook example_repr "w1" (json (PDict payload)) h in
  (out.2 = inr None /\ exists ev, out.1 = set_bus (bus h ++ [ev]) h)
  \/ (out.2 <> inr None /\ out.1 = h).
Proof.
  intros h payload out.
  apply (handle_webhook_frame example_repr "w1" (json (PDict payload)) h).
  apply surjective_pairing.
Defined.

Lemma handle_webhook_response_text_witness :
  let h := hub example_entry [example_device] None LoginOk None in
  let payload : pydict :=
    <["device_id" := PStr "d9"]>
      (<["event_type" := PStr "motion_detected"]> ∅) in
  handle_webhook example_repr "w1" (json (PDict payload)) h
  = (h, inr (Some {| text := "Device not found: d9";
                     status := BAD_REQUEST |})).
Proof.
  intros h payload.
  destruct (handle_webhook_response_text example_repr "w1" payload h)
    as (_ & _ & Hregistry).
  destruct (Hregistry (PStr "d9") eq_refl (ex_intro _ _ eq_refl))
    as (_ & Hunknown & _).
  exact (Hunknown eq_refl).
Defined.

Lemma get_camera_from_cameras_unique_witness :
  let other : pydict := <["id" := PInt 2]> (<["name" := PStr "Garage"]> ∅) in
  get_camera_from_cameras "cameras" "id" 1
    (Some {["cameras" := [Some other; Some example_camera]]})
  = inr (Some example_camera).
Proof.
  intros other.
  apply (get_camera_from_cameras_unique "cameras" "id" 1
           (Some {["cameras" := [Some other; Some example_camera]]})
           example_camera).
  - right. left.
  - reflexivity.
  - intros x Hx.
    apply elem_of_cons in Hx as [->|Hx]; [by exists other|].
    apply elem_of_cons in Hx as [->|Hx]; [by exists example_camera|].
    by apply elem_of_nil in Hx.
Defined.
